(** * yfusion: a client for the Yelp Fusion v3 API

    Shallow embedding of the Go package [yfusion] (business.go, reviews.go,
    yelp.go) and the properties of its parameter builder, request
    construction and response decoding.

    Go values are modelled as follows.
    - [string]: a Go string is a sequence of bytes, here [String.string]
      (one [ascii] per byte).
    - a nilable pointer to T used as an optional field: [option T].
    - [int]: [Z] (no arithmetic is done on them, they are only printed).
    - [float64]: [spec_float], the binary floating point numbers of the
      Standard Library (sign, mantissa, exponent, zeros, infinities, NaN).
    - a result pair (T, error): the pair the function returns,
      [T * option error]; a function returning a pointer to T and an error
      returns [option T * option error]. *)

From Stdlib Require Import ZArith List Bool Lia.
From Stdlib Require Import Strings.String Strings.Ascii.
From Stdlib Require Import Numbers.DecimalString.
From Stdlib Require Import Floats.SpecFloat.
Import ListNotations.

Open Scope string_scope.
Open Scope Z_scope.

(** ** Errors *)

(** [errors.New(msg)] and the errors the collaborators (URL parser, HTTP
    transport, JSON decoder) hand back. *)
Inductive error : Type :=
| errors_New (msg : string)
| ErrCollaborator (who : string) (msg : string).

(** ** The Go standard library functions the package calls *)

Module GoStd.

(** *** Bytes *)

Definition byte_of (c : ascii) : Z := Z.of_N (N_of_ascii c).
Definition ascii_of (b : Z) : ascii := ascii_of_N (Z.to_N b).

Definition in_range (lo hi b : Z) : bool := (lo <=? b) && (b <=? hi).

(** *** fmt.Sprintf("%d", i) *)

Definition fmt_d (i : Z) : string := NilEmpty.string_of_int (Z.to_int i).

(** *** fmt.Sprintf("%v", b) for a bool *)

Definition fmt_v_bool (b : bool) : string := if b then "true" else "false".

(** *** fmt.Sprintf("%f", x): fixed point, six digits after the point.

    strconv converts the binary value exactly to decimal and rounds it to
    the sixth fractional digit, to nearest, ties to even; fmt keeps the
    sign of negative values (also of a negative zero) and prints the
    special values as +Inf, -Inf and NaN. *)

Definition round_half_even (num den : Z) : Z :=
  let q := num / den in
  let r := num mod den in
  if 2 * r <? den then q
  else if den <? 2 * r then q + 1
  else if Z.even q then q else q + 1.

(** [scaled6 m e] is the integer nearest to [m * 2^e * 10^6]. *)
Definition scaled6 (m : positive) (e : Z) : Z :=
  if 0 <=? e then Z.pos m * 2 ^ e * 1000000
  else round_half_even (Z.pos m * 1000000) (2 ^ (- e)).

Definition pad6 (s : string) : string :=
  substring 0 (6 - String.length s) "000000" ++ s.

Definition fmt_f (x : spec_float) : string :=
  match x with
  | S754_nan => "NaN"
  | S754_infinity false => "+Inf"
  | S754_infinity true => "-Inf"
  | S754_zero s => (if s then "-" else "") ++ "0.000000"
  | S754_finite s m e =>
      let n := scaled6 m e in
      (if s then "-" else "") ++ fmt_d (n / 1000000) ++ "."
        ++ pad6 (fmt_d (n mod 1000000))
  end.

(** *** net/url.QueryEscape

    [shouldEscape c encodeQueryComponent]: letters, digits and the four
    marks - _ . ~ are kept; every other byte is escaped. A space becomes
    "+", any other escaped byte "%XX" in upper-case hexadecimal. *)

Definition shouldEscape (c : ascii) : bool :=
  let b := byte_of c in
  negb (in_range 97 122 b || in_range 65 90 b || in_range 48 57 b
        || (b =? 45) || (b =? 95) || (b =? 46) || (b =? 126)).

Definition upperhex (n : Z) : ascii :=
  match String.get (Z.to_nat n) "0123456789ABCDEF" with
  | Some c => c
  | None => "0"%char
  end.

Definition escape_byte (c : ascii) : string :=
  if shouldEscape c then
    if (byte_of c =? 32) then "+"
    else String "%"%char
           (String (upperhex (Z.shiftr (byte_of c) 4))
              (String (upperhex (Z.land (byte_of c) 15)) EmptyString))
  else String c EmptyString.

Fixpoint QueryEscape (s : string) : string :=
  match s with
  | EmptyString => EmptyString
  | String c s' => escape_byte c ++ QueryEscape s'
  end.

(** *** unicode/utf8: DecodeRuneInString, DecodeLastRuneInString

    A rune is a code point, a [Z]. An invalid or truncated encoding decodes
    to [RuneError] with width 1, the empty string to [RuneError] with
    width 0. *)

Definition RuneError : Z := 65533.
Definition RuneSelf : Z := 128.
Definition UTFMax : nat := 4.

Definition cont_bits (c : ascii) : Z := Z.land (byte_of c) 63.

Definition DecodeRuneInString (s : string) : Z * nat :=
  match s with
  | EmptyString => (RuneError, 0%nat)
  | String c0 s1 =>
      let b0 := byte_of c0 in
      if b0 <? RuneSelf then (b0, 1%nat)
      else if in_range 194 223 b0 then
        match s1 with
        | String c1 _ =>
            if in_range 128 191 (byte_of c1)
            then (Z.lor (Z.shiftl (Z.land b0 31) 6) (cont_bits c1), 2%nat)
            else (RuneError, 1%nat)
        | _ => (RuneError, 1%nat)
        end
      else if in_range 224 239 b0 then
        let lo := if b0 =? 224 then 160 else 128 in
        let hi := if b0 =? 237 then 159 else 191 in
        match s1 with
        | String c1 (String c2 _) =>
            if in_range lo hi (byte_of c1) && in_range 128 191 (byte_of c2)
            then (Z.lor (Z.shiftl (Z.land b0 15) 12)
                    (Z.lor (Z.shiftl (cont_bits c1) 6) (cont_bits c2)), 3%nat)
            else (RuneError, 1%nat)
        | _ => (RuneError, 1%nat)
        end
      else if in_range 240 244 b0 then
        let lo := if b0 =? 240 then 144 else 128 in
        let hi := if b0 =? 244 then 143 else 191 in
        match s1 with
        | String c1 (String c2 (String c3 _)) =>
            if in_range lo hi (byte_of c1) && in_range 128 191 (byte_of c2)
               && in_range 128 191 (byte_of c3)
            then (Z.lor (Z.shiftl (Z.land b0 7) 18)
                    (Z.lor (Z.shiftl (cont_bits c1) 12)
                       (Z.lor (Z.shiftl (cont_bits c2) 6) (cont_bits c3))),
                  4%nat)
            else (RuneError, 1%nat)
        | _ => (RuneError, 1%nat)
        end
      else (RuneError, 1%nat)
  end.

(** [s[i]], and the slices [s[i:]] and [s[:i]]. *)
Definition byte_at (s : string) (i : nat) : Z :=
  match String.get i s with Some c => byte_of c | None => 0 end.
Definition slice_from (s : string) (i : nat) : string :=
  substring i (String.length s - i) s.
Definition slice_to (s : string) (i : nat) : string := substring 0 i s.

Definition RuneStart (b : Z) : bool := negb (Z.land b 192 =? 128).

(** The loop [for start--; start >= lim; start-- { if RuneStart(s[start]) {
    break } }] of DecodeLastRuneInString, on [start + 1] so that the index
    stays a natural number: the result is [start + 1] when the loop ends. *)
Fixpoint scan_back (fuel : nat) (s : string) (start1 lim : nat) : nat :=
  match fuel with
  | O => start1
  | S fuel' =>
      match start1 with
      | O => O
      | S start =>
          if (start <? lim)%nat then start1
          else if RuneStart (byte_at s start) then start1
          else scan_back fuel' s start lim
      end
  end.

Definition DecodeLastRuneInString (s : string) : Z * nat :=
  let e := String.length s in
  match e with
  | O => (RuneError, 0%nat)
  | S last =>
      let r := byte_at s last in
      if r <? RuneSelf then (r, 1%nat)
      else
        let lim := (e - UTFMax)%nat in
        let start := Nat.pred (scan_back UTFMax s last lim) in
        let '(r, size) := DecodeRuneInString (slice_from s start) in
        if (start + size =? e)%nat then (r, size) else (RuneError, 1%nat)
  end.

(** *** unicode.IsSpace *)

Definition IsSpace (r : Z) : bool :=
  if r <=? 255 then
    in_range 9 13 r || (r =? 32) || (r =? 133) || (r =? 160)
  else
    (r =? 5760) || in_range 8192 8202 r || in_range 8232 8233 r
    || (r =? 8239) || (r =? 8287) || (r =? 12288).

(** *** strings.TrimSpace = TrimFunc(s, unicode.IsSpace)

    [indexNotSpace] and [lastIndexNotSpace] are indexFunc and lastIndexFunc
    with the predicate unicode.IsSpace and truth false; [None] is -1. The
    fuel bounds the loop by the length of the string: every turn consumes
    at least one byte. *)

Fixpoint indexNotSpace (fuel : nat) (s : string) (i : nat) : option nat :=
  match fuel with
  | O => None
  | S fuel' =>
      if (i <? String.length s)%nat then
        let '(r, wid) := DecodeRuneInString (slice_from s i) in
        if IsSpace r then indexNotSpace fuel' s (i + wid)%nat else Some i
      else None
  end.

Fixpoint lastIndexNotSpace (fuel : nat) (s : string) (i : nat) : option nat :=
  match fuel with
  | O => None
  | S fuel' =>
      if (0 <? i)%nat then
        let '(r, size) := DecodeLastRuneInString (slice_to s i) in
        let i' := (i - size)%nat in
        if IsSpace r then lastIndexNotSpace fuel' s i' else Some i'
      else None
  end.

Definition TrimLeftSpace (s : string) : string :=
  match indexNotSpace (S (String.length s)) s 0 with
  | None => ""
  | Some i => slice_from s i
  end.

Definition TrimRightSpace (s : string) : string :=
  match lastIndexNotSpace (S (String.length s)) s (String.length s) with
  | Some i =>
      if RuneSelf <=? byte_at s i
      then slice_to s (i + snd (DecodeRuneInString (slice_from s i)))
      else slice_to s (i + 1)
  | None => slice_to s 0
  end.

Definition TrimSpace (s : string) : string :=
  TrimRightSpace (TrimLeftSpace s).

(** *** strings.Contains and strings.HasPrefix *)

Fixpoint HasPrefix (s p : string) : bool :=
  match p, s with
  | EmptyString, _ => true
  | String _ _, EmptyString => false
  | String a p', String b s' => Ascii.eqb a b && HasPrefix s' p'
  end.

Fixpoint Contains (s substr : string) : bool :=
  HasPrefix s substr
  || match s with
     | EmptyString => false
     | String _ s' => Contains s' substr
     end.

End GoStd.

Import GoStd.

(** ** business.go: the data model *)

(** A decoded JSON value, for the fields typed [map[string]interface{}]. *)
#[warnings="-register-all"]
Inductive interface : Type :=
| JNull
| JBool (b : bool)
| JNumber (x : spec_float)
| JString (s : string)
| JArray (l : list interface)
| JObject (m : list (string * interface)).

Record CategoriesInfo := {
  cat_Alias : string;
  cat_Title : string }.

Record Coords := {
  coords_Latitude : spec_float;
  coords_Longitude : spec_float }.

Record Loc := {
  Address1 : string;
  Address2 : string;
  Address3 : string;
  City : string;
  Country : string;
  DisplayAddress : list string;
  State : string;
  ZipCode : string;
  CrossStreets : string }.

Record BusinessMigratedError := {
  bme_Code : string;
  bme_Description : string;
  bme_NewBusinessID : string }.

Record GeneralBusinessInfo := {
  gbi_Categories : list CategoriesInfo;
  Coordinates : option Coords;
  DisplayPhone : string;
  Distance : spec_float;
  gbi_ID : string;
  gbi_Alias : string;
  gbi_ImageURL : string;
  IsClosed : bool;
  gbi_Location : option Loc;
  gbi_Name : string;
  gbi_Price : string;
  gbi_Rating : spec_float;
  ReviewCount : Z;
  gbi_URL : string;
  gbi_Transactions : list string }.

Record OpenInfo := {
  IsOvernight : bool;
  End_ : string;
  Day : Z;
  Start : string }.

Record HoursInfo := {
  HoursType : string;
  Open : list OpenInfo;
  IsOpenNow : bool }.

Record DetailedBusinessInfo := {
  dbi_General : GeneralBusinessInfo;
  Phone : string;
  Photos : list string;
  Hours : list HoursInfo;
  dbi_Transactions : list string;
  IsClaimed : bool;
  dbi_Attributes : list (string * interface);
  dbi_Error : option BusinessMigratedError }.

Record BusinessSearchData := {
  bsd_Total : Z;
  Businesses : list GeneralBusinessInfo;
  Region : list (string * interface) }.

(** Every field is a pointer in the source: [None] is the nil pointer. *)
Record BusinessSearchParams := {
  Term : option string;
  Location : option string;
  Latitude : option spec_float;
  Longitude : option spec_float;
  Radius : option Z;
  Categories : option string;
  Locale : option string;
  Limit : option Z;
  Offset : option Z;
  SortBy : option string;
  Price : option string;
  OpenNow : option bool;
  OpenAt : option Z;
  Attributes : option string }.

(** [&BusinessSearchParams{}] *)
Definition emptyParams : BusinessSearchParams :=
  {| Term := None; Location := None; Latitude := None; Longitude := None;
     Radius := None; Categories := None; Locale := None; Limit := None;
     Offset := None; SortBy := None; Price := None; OpenNow := None;
     OpenAt := None; Attributes := None |}.

(** ** business.go: the parameter builder *)

(** [strings.Builder]: the bytes written so far. *)
Definition Builder : Type := string.
Definition WriteString (sb : Builder) (s : string) : Builder := sb ++ s.
Definition Len (sb : Builder) : nat := String.length sb.

Definition errMissingLocation : error :=
  errors_New
    "error missing required fields: Location or (Latitude and Longitude)".

Definition errOpenExclusive : error :=
  errors_New "cannot set both open_at and open_now parameters".

Definition isNil {A : Type} (p : option A) : bool :=
  match p with None => true | Some _ => false end.

Definition getLocOrLatLong (bus : BusinessSearchParams)
  : string * option error :=
  if isNil (Location bus) && isNil (Latitude bus) && isNil (Longitude bus)
  then ("", Some errMissingLocation)
  else
    let sb : Builder := "" in
    let sb :=
      match Location bus with
      | Some l => WriteString sb ("location=" ++ QueryEscape l)
      | None => sb
      end in
    let sb :=
      match Latitude bus, Longitude bus with
      | Some la, Some lo =>
          let sb := if (0 <? Len sb)%nat then WriteString sb "&" else sb in
          WriteString sb
            ("latitude=" ++ fmt_f la ++ "&longitude=" ++ fmt_f lo)
      | _, _ => sb
      end in
    (sb, None).

Definition getOpenAtOrNow (bus : BusinessSearchParams)
  : string * option error :=
  if negb (isNil (OpenAt bus)) && negb (isNil (OpenNow bus))
  then ("", Some errOpenExclusive)
  else
    match OpenNow bus with
    | Some b => ("open_now=" ++ fmt_v_bool b, None)
    | None =>
        match OpenAt bus with
        | Some i => ("open_at=" ++ fmt_d i, None)
        | None => ("", None)
        end
    end.

(** One [if bs.F != nil { sb.WriteString("&"); sb.WriteString(...) }]. *)
Definition writeClause {A : Type} (sb : Builder) (field : option A)
    (render : A -> string) : Builder :=
  match field with
  | Some v => WriteString (WriteString sb "&") (render v)
  | None => sb
  end.

Definition Params (bs : BusinessSearchParams) : string * option error :=
  let sb : Builder := "" in
  match getLocOrLatLong bs with
  | (_, Some err) => ("", Some err)
  | (locString, None) =>
      let sb := WriteString sb locString in
      let sb := writeClause sb (Term bs)
                  (fun v => "term=" ++ QueryEscape v) in
      let sb := writeClause sb (Radius bs) (fun v => "radius=" ++ fmt_d v) in
      let sb := writeClause sb (Categories bs)
                  (fun v => "categories=" ++ QueryEscape v) in
      let sb := writeClause sb (Locale bs)
                  (fun v => "locale=" ++ QueryEscape v) in
      let sb := writeClause sb (Limit bs) (fun v => "limit=" ++ fmt_d v) in
      let sb := writeClause sb (Offset bs) (fun v => "offset=" ++ fmt_d v) in
      let sb := writeClause sb (SortBy bs)
                  (fun v => "sort_by=" ++ QueryEscape v) in
      let sb := writeClause sb (Price bs)
                  (fun v => "price=" ++ QueryEscape v) in
      match getOpenAtOrNow bs with
      | (_, Some err) => ("", Some err)
      | (open, None) =>
          let sb :=
            if String.eqb open "" then sb
            else WriteString (WriteString sb "&") open in
          let sb := writeClause sb (Attributes bs)
                      (fun v => "attributes=" ++ QueryEscape v) in
          (sb, None)
      end
  end.

(** The setters: [bs.F = new(T); *bs.F = v]. *)
Definition SetTerm (bs : BusinessSearchParams) (s : string) :=
  {| Term := Some s; Location := Location bs; Latitude := Latitude bs;
     Longitude := Longitude bs; Radius := Radius bs;
     Categories := Categories bs; Locale := Locale bs; Limit := Limit bs;
     Offset := Offset bs; SortBy := SortBy bs; Price := Price bs;
     OpenNow := OpenNow bs; OpenAt := OpenAt bs;
     Attributes := Attributes bs |}.

Definition SetLocation (bs : BusinessSearchParams) (s : string) :=
  {| Term := Term bs; Location := Some s; Latitude := Latitude bs;
     Longitude := Longitude bs; Radius := Radius bs;
     Categories := Categories bs; Locale := Locale bs; Limit := Limit bs;
     Offset := Offset bs; SortBy := SortBy bs; Price := Price bs;
     OpenNow := OpenNow bs; OpenAt := OpenAt bs;
     Attributes := Attributes bs |}.

Definition SetLatitude (bs : BusinessSearchParams) (i : spec_float) :=
  {| Term := Term bs; Location := Location bs; Latitude := Some i;
     Longitude := Longitude bs; Radius := Radius bs;
     Categories := Categories bs; Locale := Locale bs; Limit := Limit bs;
     Offset := Offset bs; SortBy := SortBy bs; Price := Price bs;
     OpenNow := OpenNow bs; OpenAt := OpenAt bs;
     Attributes := Attributes bs |}.

Definition SetLongitude (bs : BusinessSearchParams) (i : spec_float) :=
  {| Term := Term bs; Location := Location bs; Latitude := Latitude bs;
     Longitude := Some i; Radius := Radius bs;
     Categories := Categories bs; Locale := Locale bs; Limit := Limit bs;
     Offset := Offset bs; SortBy := SortBy bs; Price := Price bs;
     OpenNow := OpenNow bs; OpenAt := OpenAt bs;
     Attributes := Attributes bs |}.

Definition SetOpenNow (bs : BusinessSearchParams) (b : bool) :=
  {| Term := Term bs; Location := Location bs; Latitude := Latitude bs;
     Longitude := Longitude bs; Radius := Radius bs;
     Categories := Categories bs; Locale := Locale bs; Limit := Limit bs;
     Offset := Offset bs; SortBy := SortBy bs; Price := Price bs;
     OpenNow := Some b; OpenAt := OpenAt bs;
     Attributes := Attributes bs |}.

Definition SetOpenAt (bs : BusinessSearchParams) (i : Z) :=
  {| Term := Term bs; Location := Location bs; Latitude := Latitude bs;
     Longitude := Longitude bs; Radius := Radius bs;
     Categories := Categories bs; Locale := Locale bs; Limit := Limit bs;
     Offset := Offset bs; SortBy := SortBy bs; Price := Price bs;
     OpenNow := OpenNow bs; OpenAt := Some i;
     Attributes := Attributes bs |}.

(** ** reviews.go: the data model *)

(** [time.Time]: an instant, as nanoseconds since the Unix epoch. *)
Definition time_Time : Type := Z.

Record UserInfo := {
  user_ID : string;
  ProfileURL : string;
  user_ImageURL : string;
  user_Name : string }.

Record ReviewInfo := {
  review_ID : string;
  review_Rating : Z;
  User : UserInfo;
  Text : string;
  TimeCreated : option time_Time;
  review_URL : string }.

Record ReviewError := {
  Code : string;
  Description : string;
  NewBusinessID : string }.

Record ReviewsData := {
  Total : Z;
  PossibleLanguages : list string;
  Reviews : list (option ReviewInfo);
  Error : option ReviewError }.

(** ** net/http and context, as far as the package uses them *)

Module Http.

(** A [context.Context]: the background context, which is never cancelled
    and has no deadline, or a context the caller derived (WithCancel,
    WithDeadline, WithTimeout, WithValue), told apart by an identity. The
    nil interface value is [None] of [option Context]. *)
Inductive Context : Type :=
| Background
| Derived (id : nat).

Definition Context_eqb (a b : Context) : bool :=
  match a, b with
  | Background, Background => true
  | Derived i, Derived j => Nat.eqb i j
  | _, _ => false
  end.

(** [http.Header], a map from a header name to its values. *)
Definition Header : Type := list (string * list string).

Definition Header_Set (h : Header) (key value : string) : Header :=
  (key, [value])
    :: filter (fun kv => negb (String.eqb (fst kv) key)) h.

Definition Header_Get (h : Header) (key : string) : string :=
  match find (fun kv => String.eqb (fst kv) key) h with
  | Some (_, v :: _) => v
  | _ => ""
  end.

(** [http.Request]: the method, the URL it was built from, the headers and
    the context [req.Context()] returns. *)
Record Request := {
  Method : string;
  URL : string;
  req_Header : Header;
  req_ctx : Context }.

(** [http.Response]: the status line text, the status code and the body. *)
Record Response := {
  Status : string;
  StatusCode : Z;
  Body : string }.

Definition StatusOK : Z := 200.
Definition StatusMovedPermanently : Z := 301.

(** [validMethod]: a method is a non-empty token. *)
Definition isTokenByte (c : ascii) : bool :=
  let b := byte_of c in
  in_range 97 122 b || in_range 65 90 b || in_range 48 57 b
  || existsb (Z.eqb b) [33; 35; 36; 37; 38; 39; 42; 43; 45; 46; 94; 95; 96;
                        124; 126].

Fixpoint allTokens (s : string) : bool :=
  match s with
  | EmptyString => true
  | String c s' => isTokenByte c && allTokens s'
  end.

Definition validMethod (method : string) : bool :=
  (0 <? String.length method)%nat && allTokens method.

End Http.

Import Http.

(** ** The world the client runs in

    Requests live on the heap and are handled through pointers: a pointer
    is an index into [heap]. [trace] records, in order, what the client
    did to the outside: the requests it constructed, the requests it
    handed to the transport, the bodies it decoded and closed. *)

Definition ptr : Type := nat.

Inductive event : Type :=
| EvNewRequest (method url : string)
| EvDo (req : Request)
| EvDecode (body : string)
| EvClose (body : string).

Record World := {
  heap : list Request;
  trace : list event }.

Definition emptyWorld : World := {| heap := []; trace := [] |}.

Definition M (A : Type) : Type := World -> A * World.

Definition ret {A : Type} (a : A) : M A := fun w => (a, w).

Definition bind {A B : Type} (c : M A) (k : A -> M B) : M B :=
  fun w => let '(a, w') := c w in k a w'.

Notation "'let*' x ':=' c 'in' k" := (bind c (fun x => k))
  (at level 10, x pattern, c at level 100, k at level 200).

Definition emit (e : event) : M unit :=
  fun w => (tt, {| heap := heap w; trace := trace w ++ [e] |}).

(** [new]: allocate a request, the pointer to it is its index. *)
Definition alloc (r : Request) : M ptr :=
  fun w => (List.length (heap w),
            {| heap := heap w ++ [r]; trace := trace w |}).

Definition zeroRequest : Request :=
  {| Method := ""; URL := ""; req_Header := []; req_ctx := Background |}.

Definition load (p : ptr) : M Request :=
  fun w => (nth p (heap w) zeroRequest, w).

Fixpoint update_nth {A : Type} (n : nat) (x : A) (l : list A) : list A :=
  match l, n with
  | [], _ => []
  | _ :: t, O => x :: t
  | h :: t, S n' => h :: update_nth n' x t
  end.

Definition store (p : ptr) (r : Request) : M unit :=
  fun w => (tt, {| heap := update_nth p r (heap w); trace := trace w |}).

(** A call that returns exactly one of a value and an error. *)
Definition Result (A : Type) : Type := (A + error)%type.

(** What the package takes from its libraries: the URL parser behind
    http.NewRequest ([Some err] when the text is no URL) and the JSON codec
    for the three records ([var b *T; Decode(&b)]: the pointer decoded, nil
    for the JSON value null, and the decoder's error). *)
Record Library := {
  url_Parse : string -> option error;
  json_BusinessSearchData :
    string -> option BusinessSearchData * option error;
  json_DetailedBusinessInfo :
    string -> option DetailedBusinessInfo * option error;
  json_ReviewsData : string -> option ReviewsData * option error }.

(** [YelpFusion]: the HTTP client, seen as the function from the request
    handed to [client.Do] to the response or transport error it comes back
    with, and the API key. *)
Record YelpFusion := {
  client : Request -> Result Response;
  apiKey : string }.

Definition NewYelpFusionWithClient (key : string)
    (c : Request -> Result Response) : YelpFusion :=
  {| client := c; apiKey := key |}.

Section Transport.

Context (lib : Library).

(** [http.NewRequest(method, url, nil)]: the new request carries the
    background context and no header. *)
Definition http_NewRequest (method url : string) : M (Result ptr) :=
  let* _ := emit (EvNewRequest method url) in
  let method := if String.eqb method "" then "GET" else method in
  if negb (validMethod method)
  then ret (inr (ErrCollaborator "net/http" "invalid method"))
  else
    match url_Parse lib url with
    | Some err => ret (inr err)
    | None =>
        let* p := alloc {| Method := method; URL := url; req_Header := [];
                           req_ctx := Background |} in
        ret (inl p)
    end.

(** [req.Header.Set(key, value)] *)
Definition req_Header_Set (req : ptr) (key value : string) : M unit :=
  let* r := load req in
  store req {| Method := Method r; URL := URL r;
               req_Header := Header_Set (req_Header r) key value;
               req_ctx := req_ctx r |}.

(** [req.WithContext(ctx)]: "returns a shallow copy of r with its context
    changed to ctx"; the receiver is left as it is. *)
Definition req_WithContext (req : ptr) (ctx : Context) : M ptr :=
  let* r := load req in
  alloc {| Method := Method r; URL := URL r; req_Header := req_Header r;
           req_ctx := ctx |}.

(** [yf.client.Do(req)] *)
Definition client_Do (yf : YelpFusion) (req : ptr) : M (Result Response) :=
  let* r := load req in
  let* _ := emit (EvDo r) in
  ret (client yf r).

(** [json.NewDecoder(body).Decode(&b)] *)
Definition decode {A : Type} (codec : string -> option A * option error)
    (body : string) : M (option A * option error) :=
  let* _ := emit (EvDecode body) in
  ret (codec body).

(** [resp.Body.Close()] *)
Definition Body_Close (resp : Response) : M unit :=
  emit (EvClose (Body resp)).

End Transport.

(** ** yelp.go *)

Definition baseURL : string := "https://api.yelp.com/v3".
Definition busDetails : string := "/businesses".
Definition busSearch : string := busDetails ++ "/search".
Definition phoneSearch : string := busSearch ++ "/phone".
Definition reviewSearch : string := "/reviews".

Definition errPhoneRequired : error := errors_New "phone number is required".

Section Client.

Context (lib : Library) (yf : YelpFusion).

(** The value [req.WithContext(ctx)] returns is dropped: the function
    returns the request [http.NewRequest] made. *)
Definition getRequest (ctx : option Context) (method url : string)
  : M (Result ptr) :=
  let* r := http_NewRequest lib method url in
  match r with
  | inr err => ret (inr err)
  | inl req =>
      let* _ := req_Header_Set req "Authorization"
                  ("Bearer " ++ apiKey yf) in
      let* _ :=
        match ctx with
        | Some c => let* _ := req_WithContext req c in ret tt
        | None => ret tt
        end in
      ret (inl req)
  end.

(** In the typed functions [defer resp.Body.Close()] runs when the function
    returns, that is after the decoder has run, on both of its branches. *)

Definition SearchBusinessResponse (ctx : option Context)
    (bus : BusinessSearchParams) : M (Result Response) :=
  match Params bus with
  | (_, Some err) => ret (inr err)
  | (params, None) =>
      let urlStr := baseURL ++ busSearch ++ "?" ++ params in
      let* r := getRequest ctx "GET" urlStr in
      match r with
      | inr err => ret (inr err)
      | inl req => client_Do yf req
      end
  end.

Definition SearchBusinessWithContext (ctx : option Context)
    (bus : BusinessSearchParams)
  : M (option BusinessSearchData * option error) :=
  let* r := SearchBusinessResponse ctx bus in
  match r with
  | inr err => ret (None, Some err)
  | inl resp =>
      if negb (StatusCode resp =? StatusOK)
      then ret (None, Some (errors_New (Status resp)))
      else
        let* d := decode (json_BusinessSearchData lib) (Body resp) in
        let* _ := Body_Close resp in
        match d with
        | (_, Some err) => ret (None, Some err)
        | (b, None) => ret (b, None)
        end
  end.

Definition SearchBusiness (bus : BusinessSearchParams) :=
  SearchBusinessWithContext None bus.

Definition SearchBusinessDetailsWithLocaleResponse (ctx : option Context)
    (busID locale : string) : M (Result Response) :=
  let urlStr := baseURL ++ busDetails ++ "/" ++ busID in
  let urlStr :=
    if negb (String.eqb (TrimSpace locale) "")
    then urlStr ++ "?locale=" ++ QueryEscape locale
    else urlStr in
  let* r := getRequest ctx "GET" urlStr in
  match r with
  | inr err => ret (inr err)
  | inl req => client_Do yf req
  end.

Definition SearchBusinessDetailsWithLocale (ctx : option Context)
    (busID locale : string)
  : M (option DetailedBusinessInfo * option error) :=
  let* r := SearchBusinessDetailsWithLocaleResponse ctx busID locale in
  match r with
  | inr err => ret (None, Some err)
  | inl resp =>
      if negb (StatusCode resp =? StatusOK)
      then ret (None, Some (errors_New (Status resp)))
      else
        let* d := decode (json_DetailedBusinessInfo lib) (Body resp) in
        let* _ := Body_Close resp in
        match d with
        | (_, Some err) => ret (None, Some err)
        | (b, None) => ret (b, None)
        end
  end.

Definition SearchBusinessDetails (busID : string) :=
  SearchBusinessDetailsWithLocale None busID "".

Definition SearchBusinessesByPhoneResponse (ctx : option Context)
    (phoneNumber : string) : M (Result Response) :=
  if String.eqb (TrimSpace phoneNumber) ""
  then ret (inr errPhoneRequired)
  else
    let urlStr :=
      baseURL ++ phoneSearch ++ "?phone=" ++ QueryEscape phoneNumber in
    let* r := getRequest ctx "GET" urlStr in
    match r with
    | inr err => ret (inr err)
    | inl req => client_Do yf req
    end.

Definition SearchBusinessesByPhoneWithContext (ctx : option Context)
    (phoneNumber : string)
  : M (option BusinessSearchData * option error) :=
  let* r := SearchBusinessesByPhoneResponse ctx phoneNumber in
  match r with
  | inr err => ret (None, Some err)
  | inl resp =>
      if negb (StatusCode resp =? StatusOK)
      then ret (None, Some (errors_New (Status resp)))
      else
        let* d := decode (json_BusinessSearchData lib) (Body resp) in
        let* _ := Body_Close resp in
        match d with
        | (_, Some err) => ret (None, Some err)
        | (b, None) => ret (b, None)
        end
  end.

Definition SearchBusinessesByPhone (phoneNumber : string) :=
  SearchBusinessesByPhoneWithContext None phoneNumber.

Definition SearchBusinessReviewsWithLocaleResponse (ctx : option Context)
    (busID locale : string) : M (Result Response) :=
  let urlStr := baseURL ++ busDetails ++ "/" ++ busID ++ reviewSearch in
  let urlStr :=
    if negb (String.eqb (TrimSpace locale) "")
    then urlStr ++ "?locale=" ++ QueryEscape locale
    else urlStr in
  let* r := getRequest ctx "GET" urlStr in
  match r with
  | inr err => ret (inr err)
  | inl req => client_Do yf req
  end.

Definition SearchBusinessReviewsWithLocale (ctx : option Context)
    (busID locale : string) : M (option ReviewsData * option error) :=
  let* r := SearchBusinessReviewsWithLocaleResponse ctx busID locale in
  match r with
  | inr err => ret (None, Some err)
  | inl resp =>
      if negb (StatusCode resp =? StatusOK)
         && negb (StatusCode resp =? StatusMovedPermanently)
      then ret (None, Some (errors_New (Status resp)))
      else
        let* d := decode (json_ReviewsData lib) (Body resp) in
        let* _ := Body_Close resp in
        match d with
        | (_, Some err) => ret (None, Some err)
        | (b, None) => ret (b, None)
        end
  end.

Definition SearchBusinessReviews (busID : string) :=
  SearchBusinessReviewsWithLocale None busID "".

End Client.

(** ** The earlier revision of yelp.go

    The revision with contexts but without the phone and review routes.
    Its [SearchBusiness], [SearchBusinessWithContext] and
    [SearchBusinessDetailsWithLocale] decode the body whatever the status
    is, and the details route does not close the body. [getRequest] and the
    [...Response] functions are those above. *)

Module Rev2.
Section Client.

Context (lib : Library) (yf : YelpFusion).

Definition SearchBusinessWithContext (ctx : option Context)
    (bus : BusinessSearchParams)
  : M (option BusinessSearchData * option error) :=
  let* r := SearchBusinessResponse lib yf ctx bus in
  match r with
  | inr err => ret (None, Some err)
  | inl resp =>
      let* d := decode (json_BusinessSearchData lib) (Body resp) in
      let* _ := Body_Close resp in
      match d with
      | (_, Some err) => ret (None, Some err)
      | (b, None) => ret (b, None)
      end
  end.

Definition SearchBusiness (bus : BusinessSearchParams)
  : M (option BusinessSearchData * option error) :=
  let* r := SearchBusinessResponse lib yf None bus in
  match r with
  | inr err => ret (None, Some err)
  | inl resp =>
      let* d := decode (json_BusinessSearchData lib) (Body resp) in
      let* _ := Body_Close resp in
      match d with
      | (_, Some err) => ret (None, Some err)
      | (b, None) => ret (b, None)
      end
  end.

Definition SearchBusinessDetailsWithLocale (ctx : option Context)
    (busID locale : string)
  : M (option DetailedBusinessInfo * option error) :=
  let* r := SearchBusinessDetailsWithLocaleResponse lib yf ctx busID locale in
  match r with
  | inr err => ret (None, Some err)
  | inl resp =>
      let* d := decode (json_DetailedBusinessInfo lib) (Body resp) in
      match d with
      | (_, Some err) => ret (None, Some err)
      | (b, None) => ret (b, None)
      end
  end.

End Client.
End Rev2.

(** ** The query string as a list of clauses

    What [Params] writes after the location part, field by field in the
    order of the source: the key and the rendered value of every field that
    is set. [joinClauses] is the text they make, each clause behind its
    own "&". *)

Definition optField {A : Type} (key : string) (field : option A)
    (render : A -> string) : list (string * string) :=
  match field with
  | Some v => [(key, render v)]
  | None => []
  end.

Definition openField (bs : BusinessSearchParams) : list (string * string) :=
  match OpenNow bs, OpenAt bs with
  | Some b, _ => [("open_now", fmt_v_bool b)]
  | None, Some i => [("open_at", fmt_d i)]
  | None, None => []
  end.

Definition fields (bs : BusinessSearchParams) : list (string * string) :=
  optField "term" (Term bs) QueryEscape
  ++ optField "radius" (Radius bs) fmt_d
  ++ optField "categories" (Categories bs) QueryEscape
  ++ optField "locale" (Locale bs) QueryEscape
  ++ optField "limit" (Limit bs) fmt_d
  ++ optField "offset" (Offset bs) fmt_d
  ++ optField "sort_by" (SortBy bs) QueryEscape
  ++ optField "price" (Price bs) QueryEscape
  ++ openField bs
  ++ optField "attributes" (Attributes bs) QueryEscape.

Definition paramKeys : list string :=
  ["term"; "radius"; "categories"; "locale"; "limit"; "offset"; "sort_by";
   "price"; "open_now"; "open_at"; "attributes"].

Definition clause (kv : string * string) : string :=
  fst kv ++ "=" ++ snd kv.

Fixpoint joinClauses (fs : list (string * string)) : string :=
  match fs with
  | [] => ""
  | kv :: fs' => "&" ++ clause kv ++ joinClauses fs'
  end.

(** [bothOpen bs]: open_now and open_at are both set. *)
Definition bothOpen (bs : BusinessSearchParams) : bool :=
  negb (isNil (OpenAt bs)) && negb (isNil (OpenNow bs)).

(** [noLocation bs]: none of location, latitude and longitude is set, the
    condition [getLocOrLatLong] tests. *)
Definition noLocation (bs : BusinessSearchParams) : bool :=
  isNil (Location bs) && isNil (Latitude bs) && isNil (Longitude bs).

(** [hasPair bs]: latitude and longitude are both set. *)
Definition hasPair (bs : BusinessSearchParams) : bool :=
  negb (isNil (Latitude bs)) && negb (isNil (Longitude bs)).

(** Bytes that do not occur in a string, and suffixes. *)
Fixpoint notin (c : ascii) (s : string) : bool :=
  match s with
  | EmptyString => true
  | String x s' => negb (Ascii.eqb x c) && notin c s'
  end.

Fixpoint HasSuffix (s suffix : string) : bool :=
  String.eqb s suffix
  || match s with
     | EmptyString => false
     | String _ s' => HasSuffix s' suffix
     end.

(** The two binary64 numbers of the examples: 30.0 = 30 * 2^48 * 2^-48 and
    -97.0 = -(97 * 2^46) * 2^-46, with 53-bit mantissas. *)
Definition f30 : spec_float := S754_finite false 8444249301319680 (-48).
Definition fm97 : spec_float := S754_finite true 6825768185233408 (-46).

(** The bytes "=" and "&". *)
Definition eqc : ascii := "="%char.
Definition ampc : ascii := "&"%char.

(** Strings made of ASCII white space only: tab, line feed, vertical tab,
    form feed, carriage return, space. *)
Definition isBlank (c : ascii) : bool :=
  in_range 9 13 (byte_of c) || (byte_of c =? 32).

Fixpoint asciiBlank (s : string) : bool :=
  match s with
  | EmptyString => true
  | String c s' => isBlank c && asciiBlank s'
  end.

(** The URL of the phone route for a phone number. *)
Definition phoneURL (phoneNumber : string) : string :=
  baseURL ++ phoneSearch ++ "?phone=" ++ QueryEscape phoneNumber.

(** The request [getRequest] returns for a URL: method, URL, the bearer
    token, and the background context. *)
Definition authRequest (yf : YelpFusion) (method url : string) : Request :=
  {| Method := method; URL := url;
     req_Header := [("Authorization", ["Bearer " ++ apiKey yf])];
     req_ctx := Background |}.

(** The copy [req.WithContext] leaves on the heap. *)
Definition contextCopy (yf : YelpFusion) (ctx : option Context)
    (method url : string) : list Request :=
  match ctx with
  | Some c => [{| Method := method; URL := url;
                  req_Header := [("Authorization", ["Bearer " ++ apiKey yf])];
                  req_ctx := c |}]
  | None => []
  end.

(** ** Sample inputs and test doubles *)

(** Location, latitude and longitude all set. *)
Definition allThree : BusinessSearchParams :=
  SetLongitude (SetLatitude (SetLocation emptyParams "Austin, TX") f30) fm97.

(** A space, a tab, a no-break space (C2 A0 in UTF-8) and a space. *)
Definition blankPhone : string :=
  String (ascii_of 32) (String (ascii_of 9)
    (String (ascii_of 194) (String (ascii_of 160) " "))).

Definition migratedReviews : ReviewsData :=
  {| Total := 0; PossibleLanguages := []; Reviews := [];
     Error := Some {| Code := "BUSINESS_MIGRATED";
                      Description := "The requested business has moved";
                      NewBusinessID := "new-business-id" |} |}.

Definition emptyReviews : ReviewsData :=
  {| Total := 0; PossibleLanguages := []; Reviews := []; Error := None |}.

Definition emptySearchData : BusinessSearchData :=
  {| bsd_Total := 0; Businesses := []; Region := [] |}.

(** A library double: its URL parser accepts every text; its JSON codec
    decodes the body "migrated" to a review list carrying a migration
    error, the body "null" to nil, any other body to an empty record, and
    fails on every details body. *)
Definition stubLibrary : Library :=
  {| url_Parse := fun _ => None;
     json_BusinessSearchData :=
       fun body => if String.eqb body "null" then (None, None)
                   else (Some emptySearchData, None);
     json_DetailedBusinessInfo :=
       fun body => (None, Some (ErrCollaborator "encoding/json" body));
     json_ReviewsData :=
       fun body => if String.eqb body "migrated"
                   then (Some migratedReviews, None)
                   else if String.eqb body "null" then (None, None)
                   else (Some emptyReviews, None) |}.

(** A client whose transport answers every request with [resp]. *)
Definition stubYelp (resp : Response) : YelpFusion :=
  NewYelpFusionWithClient "key" (fun _ => inl resp).

Definition notFound : Response :=
  {| Status := "404 Not Found"; StatusCode := 404; Body := "missing" |}.

Definition okMigrated : Response :=
  {| Status := "200 OK"; StatusCode := 200; Body := "migrated" |}.

Definition movedMigrated : Response :=
  {| Status := "301 Moved Permanently"; StatusCode := 301;
     Body := "migrated" |}.

(** ** The remaining setters and sequences of setter calls *)

Definition SetRadius (bs : BusinessSearchParams) (i : Z) :=
  {| Term := Term bs; Location := Location bs; Latitude := Latitude bs;
     Longitude := Longitude bs; Radius := Some i;
     Categories := Categories bs; Locale := Locale bs; Limit := Limit bs;
     Offset := Offset bs; SortBy := SortBy bs; Price := Price bs;
     OpenNow := OpenNow bs; OpenAt := OpenAt bs;
     Attributes := Attributes bs |}.

Definition SetCategories (bs : BusinessSearchParams) (s : string) :=
  {| Term := Term bs; Location := Location bs; Latitude := Latitude bs;
     Longitude := Longitude bs; Radius := Radius bs;
     Categories := Some s; Locale := Locale bs; Limit := Limit bs;
     Offset := Offset bs; SortBy := SortBy bs; Price := Price bs;
     OpenNow := OpenNow bs; OpenAt := OpenAt bs;
     Attributes := Attributes bs |}.

Definition SetLocale (bs : BusinessSearchParams) (s : string) :=
  {| Term := Term bs; Location := Location bs; Latitude := Latitude bs;
     Longitude := Longitude bs; Radius := Radius bs;
     Categories := Categories bs; Locale := Some s; Limit := Limit bs;
     Offset := Offset bs; SortBy := SortBy bs; Price := Price bs;
     OpenNow := OpenNow bs; OpenAt := OpenAt bs;
     Attributes := Attributes bs |}.

Definition SetLimit (bs : BusinessSearchParams) (i : Z) :=
  {| Term := Term bs; Location := Location bs; Latitude := Latitude bs;
     Longitude := Longitude bs; Radius := Radius bs;
     Categories := Categories bs; Locale := Locale bs; Limit := Some i;
     Offset := Offset bs; SortBy := SortBy bs; Price := Price bs;
     OpenNow := OpenNow bs; OpenAt := OpenAt bs;
     Attributes := Attributes bs |}.

Definition SetOffset (bs : BusinessSearchParams) (i : Z) :=
  {| Term := Term bs; Location := Location bs; Latitude := Latitude bs;
     Longitude := Longitude bs; Radius := Radius bs;
     Categories := Categories bs; Locale := Locale bs; Limit := Limit bs;
     Offset := Some i; SortBy := SortBy bs; Price := Price bs;
     OpenNow := OpenNow bs; OpenAt := OpenAt bs;
     Attributes := Attributes bs |}.

Definition SetSortBy (bs : BusinessSearchParams) (s : string) :=
  {| Term := Term bs; Location := Location bs; Latitude := Latitude bs;
     Longitude := Longitude bs; Radius := Radius bs;
     Categories := Categories bs; Locale := Locale bs; Limit := Limit bs;
     Offset := Offset bs; SortBy := Some s; Price := Price bs;
     OpenNow := OpenNow bs; OpenAt := OpenAt bs;
     Attributes := Attributes bs |}.

Definition SetPrice (bs : BusinessSearchParams) (s : string) :=
  {| Term := Term bs; Location := Location bs; Latitude := Latitude bs;
     Longitude := Longitude bs; Radius := Radius bs;
     Categories := Categories bs; Locale := Locale bs; Limit := Limit bs;
     Offset := Offset bs; SortBy := SortBy bs; Price := Some s;
     OpenNow := OpenNow bs; OpenAt := OpenAt bs;
     Attributes := Attributes bs |}.

Definition SetAttributes (bs : BusinessSearchParams) (s : string) :=
  {| Term := Term bs; Location := Location bs; Latitude := Latitude bs;
     Longitude := Longitude bs; Radius := Radius bs;
     Categories := Categories bs; Locale := Locale bs; Limit := Limit bs;
     Offset := Offset bs; SortBy := SortBy bs; Price := Price bs;
     OpenNow := OpenNow bs; OpenAt := OpenAt bs;
     Attributes := Some s |}.

(** A call of one of the fourteen setters, and a run of such calls on a
    record, first call first. The package has no other way to change a
    record it was handed. *)
Inductive setterCall : Type :=
| CallSetTerm (s : string)
| CallSetLocation (s : string)
| CallSetLatitude (i : spec_float)
| CallSetLongitude (i : spec_float)
| CallSetRadius (i : Z)
| CallSetCategories (s : string)
| CallSetLocale (s : string)
| CallSetLimit (i : Z)
| CallSetOffset (i : Z)
| CallSetSortBy (s : string)
| CallSetPrice (s : string)
| CallSetOpenNow (b : bool)
| CallSetOpenAt (i : Z)
| CallSetAttributes (s : string).

Definition applySetter (bs : BusinessSearchParams) (c : setterCall)
  : BusinessSearchParams :=
  match c with
  | CallSetTerm s => SetTerm bs s
  | CallSetLocation s => SetLocation bs s
  | CallSetLatitude i => SetLatitude bs i
  | CallSetLongitude i => SetLongitude bs i
  | CallSetRadius i => SetRadius bs i
  | CallSetCategories s => SetCategories bs s
  | CallSetLocale s => SetLocale bs s
  | CallSetLimit i => SetLimit bs i
  | CallSetOffset i => SetOffset bs i
  | CallSetSortBy s => SetSortBy bs s
  | CallSetPrice s => SetPrice bs s
  | CallSetOpenNow b => SetOpenNow bs b
  | CallSetOpenAt i => SetOpenAt bs i
  | CallSetAttributes s => SetAttributes bs s
  end.

Definition applySetters (bs : BusinessSearchParams)
    (calls : list setterCall) : BusinessSearchParams :=
  fold_left applySetter calls bs.

(** ** The location part as clauses *)

(** What [getLocOrLatLong] writes: the location clause when the location
    is set, the latitude and longitude clauses when both are set. *)
Definition pairField (bs : BusinessSearchParams) : list (string * string) :=
  match Latitude bs, Longitude bs with
  | Some la, Some lo => [("latitude", fmt_f la); ("longitude", fmt_f lo)]
  | _, _ => []
  end.

Definition locFields (bs : BusinessSearchParams) : list (string * string) :=
  optField "location" (Location bs) QueryEscape ++ pairField bs.

(** Clauses joined by "&", none in front of the first. *)
Definition joinAmp (fs : list (string * string)) : string :=
  match fs with
  | [] => ""
  | kv :: fs' => clause kv ++ joinClauses fs'
  end.

(** How often a byte occurs in a string, and strings made of bytes of a
    class. *)
Fixpoint countByte (c : ascii) (s : string) : nat :=
  match s with
  | EmptyString => O
  | String x s' => ((if Ascii.eqb x c then 1 else 0) + countByte c s')%nat
  end.

Fixpoint allIn (P : ascii -> bool) (s : string) : bool :=
  match s with
  | EmptyString => true
  | String x s' => P x && allIn P s'
  end.

(** The bytes of keys and rendered values: ASCII letters, digits and the
    marks - _ . ~ + %. The bytes of a query string: those, "&" and "=". *)
Definition safeByte (c : ascii) : bool :=
  let b := byte_of c in
  in_range 97 122 b || in_range 65 90 b || in_range 48 57 b
  || existsb (Z.eqb b) [45; 95; 46; 126; 43; 37].

Definition queryByte (c : ascii) : bool :=
  safeByte c || Ascii.eqb c "&" || Ascii.eqb c "=".

(** ** The four routes *)

(** A call of one of the four routes, and the [...Response] function it
    runs. *)
Inductive route : Type :=
| RouteSearch (bus : BusinessSearchParams)
| RouteDetails (busID locale : string)
| RoutePhone (phoneNumber : string)
| RouteReviews (busID locale : string).

Definition respond (lib : Library) (yf : YelpFusion) (ctx : option Context)
    (r : route) : M (Result Response) :=
  match r with
  | RouteSearch bus => SearchBusinessResponse lib yf ctx bus
  | RouteDetails busID locale =>
      SearchBusinessDetailsWithLocaleResponse lib yf ctx busID locale
  | RoutePhone phoneNumber =>
      SearchBusinessesByPhoneResponse lib yf ctx phoneNumber
  | RouteReviews busID locale =>
      SearchBusinessReviewsWithLocaleResponse lib yf ctx busID locale
  end.

(** The "?locale=" suffix of the details and reviews routes. *)
Definition localeQuery (locale : string) : string :=
  if String.eqb (TrimSpace locale) "" then ""
  else "?locale=" ++ QueryEscape locale.

(** The URL a route asks for, or the validation error that stops it. *)
Definition routeURL (r : route) : string + error :=
  match r with
  | RouteSearch bus =>
      match Params bus with
      | (_, Some err) => inr err
      | (params, None) => inl (baseURL ++ busSearch ++ "?" ++ params)
      end
  | RouteDetails busID locale =>
      inl (baseURL ++ busDetails ++ "/" ++ busID ++ localeQuery locale)
  | RoutePhone phoneNumber =>
      if String.eqb (TrimSpace phoneNumber) "" then inr errPhoneRequired
      else inl (phoneURL phoneNumber)
  | RouteReviews busID locale =>
      inl (baseURL ++ busDetails ++ "/" ++ busID ++ reviewSearch
             ++ localeQuery locale)
  end.

(** A world with some events added to its trace. *)
Definition logged (w : World) (evs : list event) : World :=
  {| heap := heap w; trace := trace w ++ evs |}.

(** The requests a trace handed to the transport. *)
Fixpoint sent (evs : list event) : list Request :=
  match evs with
  | [] => []
  | EvDo req :: evs' => req :: sent evs'
  | _ :: evs' => sent evs'
  end.

(** The request a call of a route hands to the transport: the GET request
    with the bearer token for the URL of the route, when the arguments are
    valid and the URL parses; none otherwise. *)
Definition expectedRequests (lib : Library) (yf : YelpFusion) (r : route)
  : list Request :=
  match routeURL r with
  | inl url =>
      match url_Parse lib url with
      | None => [authRequest yf "GET" url]
      | Some _ => []
      end
  | inr _ => []
  end.

(** The typed function of a route, with the three result types under one
    roof: what the function returns, pointer and error. *)
Inductive answer : Type :=
| SearchAnswer (b : option BusinessSearchData)
| DetailsAnswer (b : option DetailedBusinessInfo)
| ReviewsAnswer (b : option ReviewsData).

Definition isNilAnswer (a : answer) : bool :=
  match a with
  | SearchAnswer b => isNil b
  | DetailsAnswer b => isNil b
  | ReviewsAnswer b => isNil b
  end.

Definition invoke (lib : Library) (yf : YelpFusion) (ctx : option Context)
    (r : route) : M (answer * option error) :=
  match r with
  | RouteSearch bus =>
      let* x := SearchBusinessWithContext lib yf ctx bus in
      ret (SearchAnswer (fst x), snd x)
  | RouteDetails busID locale =>
      let* x := SearchBusinessDetailsWithLocale lib yf ctx busID locale in
      ret (DetailsAnswer (fst x), snd x)
  | RoutePhone phoneNumber =>
      let* x := SearchBusinessesByPhoneWithContext lib yf ctx phoneNumber in
      ret (SearchAnswer (fst x), snd x)
  | RouteReviews busID locale =>
      let* x := SearchBusinessReviewsWithLocale lib yf ctx busID locale in
      ret (ReviewsAnswer (fst x), snd x)
  end.

(** The nil result of a route, the status codes its typed function
    decodes, and its JSON codec. *)
Definition nilAnswer (r : route) : answer :=
  match r with
  | RouteSearch _ | RoutePhone _ => SearchAnswer None
  | RouteDetails _ _ => DetailsAnswer None
  | RouteReviews _ _ => ReviewsAnswer None
  end.

Definition accepted (r : route) (status : Z) : bool :=
  match r with
  | RouteReviews _ _ =>
      (status =? StatusOK) || (status =? StatusMovedPermanently)
  | _ => status =? StatusOK
  end.

Definition decodeAnswer (lib : Library) (r : route) (body : string)
  : answer * option error :=
  match r with
  | RouteSearch _ | RoutePhone _ =>
      (SearchAnswer (fst (json_BusinessSearchData lib body)),
       snd (json_BusinessSearchData lib body))
  | RouteDetails _ _ =>
      (DetailsAnswer (fst (json_DetailedBusinessInfo lib body)),
       snd (json_DetailedBusinessInfo lib body))
  | RouteReviews _ _ =>
      (ReviewsAnswer (fst (json_ReviewsData lib body)),
       snd (json_ReviewsData lib body))
  end.

(** A library double whose URL parser refuses every URL with a space or a
    control byte in it. It is stricter than url.Parse, which refuses
    control bytes and malformed percent escapes but accepts a space. *)
Definition strictLibrary : Library :=
  {| url_Parse :=
       fun url =>
         if allIn (fun c => (32 <? byte_of c) && negb (byte_of c =? 127)) url
         then None
         else Some (ErrCollaborator "net/url" "invalid character in URL");
     json_BusinessSearchData := json_BusinessSearchData stubLibrary;
     json_DetailedBusinessInfo := json_DetailedBusinessInfo stubLibrary;
     json_ReviewsData := json_ReviewsData stubLibrary |}.

(** A client whose transport fails on every request. *)
Definition downYelp : YelpFusion :=
  NewYelpFusionWithClient "key"
    (fun _ => inr (ErrCollaborator "net/http" "connection refused")).

Definition okNull : Response :=
  {| Status := "200 OK"; StatusCode := 200; Body := "null" |}.

Definition teapot : Response :=
  {| Status := "418 I'm a teapot"; StatusCode := 418; Body := "migrated" |}.

(** Two setter calls on the same field. *)
Definition sameField (a b : setterCall) : bool :=
  match a, b with
  | CallSetTerm _, CallSetTerm _
  | CallSetLocation _, CallSetLocation _
  | CallSetLatitude _, CallSetLatitude _
  | CallSetLongitude _, CallSetLongitude _
  | CallSetRadius _, CallSetRadius _
  | CallSetCategories _, CallSetCategories _
  | CallSetLocale _, CallSetLocale _
  | CallSetLimit _, CallSetLimit _
  | CallSetOffset _, CallSetOffset _
  | CallSetSortBy _, CallSetSortBy _
  | CallSetPrice _, CallSetPrice _
  | CallSetOpenNow _, CallSetOpenNow _
  | CallSetOpenAt _, CallSetOpenAt _
  | CallSetAttributes _, CallSetAttributes _ => true
  | _, _ => false
  end.

(** The bytes of a URL the client builds from safe parts: the bytes of a
    query string and ":", "/", "?". *)
Definition urlByte (c : ascii) : bool :=
  queryByte c || Ascii.eqb c ":" || Ascii.eqb c "/" || Ascii.eqb c "?".

(** The business id a route puts into the path, if it has one. *)
Definition pathID (r : route) : string :=
  match r with
  | RouteDetails busID _ | RouteReviews busID _ => busID
  | RouteSearch _ | RoutePhone _ => ""
  end.

(** * Properties *)

(** ** Strings *)

Lemma append_assoc (a b c : string) : (a ++ b) ++ c = a ++ (b ++ c).
Proof. induction a as [|x a IH]; simpl; [reflexivity | now rewrite IH]. Qed.

Lemma append_nil_r (a : string) : a ++ "" = a.
Proof. induction a as [|x a IH]; simpl; [reflexivity | now rewrite IH]. Qed.

Lemma notin_app c a b : notin c (a ++ b) = notin c a && notin c b.
Proof.
  induction a as [|x a IH]; simpl; [reflexivity|].
  now rewrite IH, andb_assoc.
Qed.

Lemma HasPrefix_nil s : HasPrefix s "" = true.
Proof. now destruct s. Qed.

Lemma HasPrefix_app s t : HasPrefix (s ++ t) s = true.
Proof.
  induction s as [|x s IH]; simpl.
  - apply HasPrefix_nil.
  - now rewrite Ascii.eqb_refl, IH.
Qed.

Lemma HasPrefix_Contains s p : HasPrefix s p = true -> Contains s p = true.
Proof. intros H. destruct s; simpl in *; now rewrite H. Qed.

(** A pattern without the byte [c] does not match across a [c]. *)
Lemma HasPrefix_sep c a b p :
  notin c p = true -> HasPrefix (a ++ String c b) p = HasPrefix a p.
Proof.
  revert p. induction a as [|y a IH]; intros [|x p] Hp; simpl in *;
    try reflexivity.
  - apply andb_prop in Hp. destruct Hp as [Hx _].
    apply negb_true_iff in Hx. now rewrite Hx.
  - apply andb_prop in Hp. destruct Hp as [_ Hp]. now rewrite IH.
Qed.

Lemma Contains_nil_l p : p <> "" -> Contains "" p = false.
Proof. destruct p; [congruence | reflexivity]. Qed.

Lemma Contains_sep c a b p :
  notin c p = true -> p <> "" ->
  Contains (a ++ String c b) p = Contains a p || Contains b p.
Proof.
  intros Hc Hp. induction a as [|y a IH].
  - change ("" ++ String c b) with (String c b).
    rewrite (Contains_nil_l p Hp). cbn [Contains orb].
    change (String c b) with ("" ++ String c b).
    rewrite (HasPrefix_sep c "" b p Hc).
    destruct p; [congruence | reflexivity].
  - change (String y a ++ String c b) with (String y (a ++ String c b)).
    cbn [Contains]. rewrite IH.
    change (String y (a ++ String c b)) with (String y a ++ String c b).
    rewrite (HasPrefix_sep c (String y a) b p Hc).
    now rewrite orb_assoc.
Qed.

(** A pattern with a byte that the text lacks does not occur in it. *)
Lemma HasPrefix_notin c s p :
  notin c s = true -> notin c p = false -> HasPrefix s p = false.
Proof.
  revert s. induction p as [|x p IH]; intros [|y s] Hs Hp; simpl in *;
    try congruence.
  apply andb_prop in Hs. destruct Hs as [Hy Hs].
  destruct (Ascii.eqb x y) eqn:E; [|reflexivity]. simpl.
  apply Ascii.eqb_eq in E. subst y. rewrite Hy in Hp. simpl in Hp.
  now apply IH.
Qed.

Lemma Contains_notin c s p :
  notin c s = true -> notin c p = false -> Contains s p = false.
Proof.
  intros Hs Hp. induction s as [|y s IH].
  - cbn [Contains]. now rewrite (HasPrefix_notin c "" p Hs Hp).
  - cbn [Contains]. rewrite (HasPrefix_notin c _ p Hs Hp).
    simpl in Hs. apply andb_prop in Hs. now rewrite IH.
Qed.

(** In [key=value] the pattern [w=] can only sit at the end of the key. *)
Lemma HasPrefix_clause k v w :
  notin eqc k = true -> notin eqc w = true ->
  HasPrefix (k ++ String eqc v) (w ++ String eqc "") = String.eqb k w.
Proof.
  revert w.
  induction k as [|y k IH]; intros [|x w] Hk Hw;
    cbn [HasPrefix append notin String.eqb] in *.
  - rewrite Ascii.eqb_refl. apply HasPrefix_nil.
  - apply andb_prop in Hw. destruct Hw as [Hx _].
    apply negb_true_iff in Hx. now rewrite Hx.
  - apply andb_prop in Hk. destruct Hk as [Hy _].
    apply negb_true_iff in Hy. rewrite Ascii.eqb_sym, Hy. reflexivity.
  - apply andb_prop in Hk. destruct Hk as [_ Hk].
    apply andb_prop in Hw. destruct Hw as [_ Hw].
    rewrite (IH w Hk Hw), Ascii.eqb_sym. reflexivity.
Qed.

Lemma Contains_clause k v w :
  notin eqc k = true -> notin eqc v = true -> notin eqc w = true ->
  Contains (k ++ String eqc v) (w ++ String eqc "") = HasSuffix k w.
Proof.
  intros Hk Hv Hw. induction k as [|y k IH].
  - change ("" ++ String eqc v) with (String eqc v). cbn [Contains].
    rewrite (Contains_notin eqc v (w ++ String eqc "") Hv).
    2:{ rewrite notin_app. cbn [notin]. rewrite Ascii.eqb_refl.
        now rewrite andb_false_r. }
    change (String eqc v) with ("" ++ String eqc v).
    rewrite (HasPrefix_clause "" v w Hk Hw). cbn [HasSuffix].
    reflexivity.
  - change (String y k ++ String eqc v) with (String y (k ++ String eqc v)).
    cbn [Contains HasSuffix].
    change (String y (k ++ String eqc v)) with (String y k ++ String eqc v).
    rewrite (HasPrefix_clause (String y k) v w Hk Hw).
    cbn [notin] in Hk. apply andb_prop in Hk. destruct Hk as [_ Hk].
    now rewrite (IH Hk).
Qed.

(** The pattern [w=] occurs in a text followed by clauses exactly if it
    occurs in the text or some key ends in [w]. *)
Lemma Contains_joinClauses a fs w :
  notin ampc w = true -> notin eqc w = true ->
  Forall (fun kv => notin eqc (fst kv) = true /\ notin eqc (snd kv) = true
                    /\ HasSuffix (fst kv) w = false) fs ->
  Contains (a ++ joinClauses fs) (w ++ String eqc "")
  = Contains a (w ++ String eqc "").
Proof.
  intros Ha He HF. revert a.
  induction HF as [|[k v] fs [Hk [Hv Hs]] HF IH]; intros a.
  - cbn [joinClauses]. now rewrite append_nil_r.
  - change (Contains (a ++ String ampc (clause (k, v) ++ joinClauses fs))
              (w ++ String eqc "") = Contains a (w ++ String eqc "")).
    cbn [fst snd] in *.
    rewrite Contains_sep.
    + rewrite IH.
      change (clause (k, v)) with (k ++ String eqc v).
      rewrite (Contains_clause k v w Hk Hv He), Hs.
      apply orb_false_r.
    + rewrite notin_app, Ha. reflexivity.
    + destruct w; discriminate.
Qed.

(** ** Rendered values contain no "=" *)

Lemma escape_byte_no_eq c : notin eqc (escape_byte c) = true.
Proof. destruct c as [[] [] [] [] [] [] [] []]; reflexivity. Qed.

Lemma QueryEscape_no_eq s : notin eqc (QueryEscape s) = true.
Proof.
  induction s as [|c s IH]; [reflexivity|].
  cbn [QueryEscape]. now rewrite notin_app, escape_byte_no_eq, IH.
Qed.

Lemma string_of_uint_no_eq d : notin eqc (NilEmpty.string_of_uint d) = true.
Proof. induction d; cbn [NilEmpty.string_of_uint notin]; auto. Qed.

Lemma fmt_d_no_eq i : notin eqc (fmt_d i) = true.
Proof.
  unfold fmt_d, NilEmpty.string_of_int.
  destruct (Z.to_int i); cbn [notin]; now rewrite ?string_of_uint_no_eq.
Qed.

Lemma fmt_v_bool_no_eq b : notin eqc (fmt_v_bool b) = true.
Proof. now destruct b. Qed.

(** ** [Params] writes the location part, then the clauses in order *)

Lemma joinClauses_app a b :
  joinClauses (a ++ b)%list = joinClauses a ++ joinClauses b.
Proof.
  induction a as [|kv a IH]; [reflexivity|].
  cbn [joinClauses List.app]. now rewrite IH, !append_assoc.
Qed.

Lemma writeClause_optField {A : Type} sb key (f : option A) r :
  writeClause sb f (fun v => key ++ "=" ++ r v)
  = sb ++ joinClauses (optField key f r).
Proof.
  destruct f; cbn [writeClause optField joinClauses clause fst snd].
  - unfold WriteString. now rewrite !append_assoc, append_nil_r.
  - now rewrite append_nil_r.
Qed.

Lemma getOpenAtOrNow_openField bs :
  bothOpen bs = false ->
  exists o, getOpenAtOrNow bs = (o, None)
    /\ forall sb,
        (if String.eqb o "" then sb else WriteString (WriteString sb "&") o)
        = sb ++ joinClauses (openField bs).
Proof.
  unfold getOpenAtOrNow, bothOpen, openField. intros ->.
  destruct (OpenNow bs) as [b|]; [|destruct (OpenAt bs) as [i|]];
    eexists; (split; [reflexivity|]); intros sb;
    cbn [String.eqb append joinClauses clause fst snd]; unfold WriteString;
    now rewrite ?append_assoc, ?append_nil_r.
Qed.

Lemma Params_clauses bs loc :
  getLocOrLatLong bs = (loc, None) -> bothOpen bs = false ->
  Params bs = (loc ++ joinClauses (fields bs), None).
Proof.
  intros Hloc Hopen. unfold Params. rewrite Hloc.
  destruct (getOpenAtOrNow_openField bs Hopen) as [o [-> Ho]].
  rewrite Ho.
  rewrite (writeClause_optField _ "term" (Term bs) QueryEscape).
  rewrite (writeClause_optField _ "radius" (Radius bs) fmt_d).
  rewrite (writeClause_optField _ "categories" (Categories bs) QueryEscape).
  rewrite (writeClause_optField _ "locale" (Locale bs) QueryEscape).
  rewrite (writeClause_optField _ "limit" (Limit bs) fmt_d).
  rewrite (writeClause_optField _ "offset" (Offset bs) fmt_d).
  rewrite (writeClause_optField _ "sort_by" (SortBy bs) QueryEscape).
  rewrite (writeClause_optField _ "price" (Price bs) QueryEscape).
  rewrite (writeClause_optField _ "attributes" (Attributes bs) QueryEscape).
  unfold fields, WriteString. rewrite !joinClauses_app, !append_assoc.
  reflexivity.
Qed.

Lemma Params_bothOpen bs loc :
  getLocOrLatLong bs = (loc, None) -> bothOpen bs = true ->
  Params bs = ("", Some errOpenExclusive).
Proof.
  intros Hloc Hopen. unfold Params. rewrite Hloc.
  unfold getOpenAtOrNow. fold (bothOpen bs). now rewrite Hopen.
Qed.

Lemma Params_noLocation bs :
  noLocation bs = true -> Params bs = ("", Some errMissingLocation).
Proof.
  intros H. unfold Params, getLocOrLatLong. fold (noLocation bs).
  now rewrite H.
Qed.

Lemma getLocOrLatLong_ok bs :
  noLocation bs = false -> exists loc, getLocOrLatLong bs = (loc, None).
Proof.
  intros H. unfold getLocOrLatLong. fold (noLocation bs). rewrite H.
  eexists. reflexivity.
Qed.

(** The keys and values of the clauses: every key is one of [paramKeys],
    every value is free of "=". *)
Lemma optField_keys_values {A : Type} key (f : option A) r :
  In key paramKeys -> (forall v, notin eqc (r v) = true) ->
  Forall (fun kv => In (fst kv) paramKeys /\ notin eqc (snd kv) = true)
    (optField key f r).
Proof.
  intros Hk Hr. destruct f; constructor; [split; [exact Hk | apply Hr]|].
  constructor.
Qed.

Lemma In_paramKeys k :
  existsb (String.eqb k) paramKeys = true -> In k paramKeys.
Proof.
  intros H. apply existsb_exists in H. destruct H as [x [Hx E]].
  apply String.eqb_eq in E. now subst.
Qed.

Lemma fields_keys_values bs :
  Forall (fun kv => In (fst kv) paramKeys /\ notin eqc (snd kv) = true)
    (fields bs).
Proof.
  unfold fields.
  repeat (apply Forall_app; split);
    try (apply optField_keys_values;
         [apply In_paramKeys; reflexivity
         | first [apply QueryEscape_no_eq | apply fmt_d_no_eq]]).
  unfold openField.
  destruct (OpenNow bs); [|destruct (OpenAt bs)]; repeat constructor;
    cbn [fst snd];
    first [apply In_paramKeys; reflexivity | apply fmt_v_bool_no_eq
          | apply fmt_d_no_eq].
Qed.

Lemma fields_no_suffix bs w :
  forallb (fun k => notin eqc k && negb (HasSuffix k w)) paramKeys = true ->
  Forall (fun kv => notin eqc (fst kv) = true /\ notin eqc (snd kv) = true
                    /\ HasSuffix (fst kv) w = false) (fields bs).
Proof.
  intros H. rewrite forallb_forall in H.
  eapply Forall_impl; [|apply fields_keys_values].
  intros [k v] [Hin Hv]. cbn [fst snd] in *.
  specialize (H k Hin). apply andb_prop in H. destruct H as [Hk Hs].
  apply negb_true_iff in Hs. auto.
Qed.

(** ** The location rule *)

Lemma getLocOrLatLong_location_only bs l :
  Location bs = Some l -> hasPair bs = false ->
  getLocOrLatLong bs = ("location=" ++ QueryEscape l, None).
Proof.
  unfold getLocOrLatLong, hasPair. intros Hl Hp. rewrite Hl.
  cbn [isNil andb].
  destruct (Latitude bs), (Longitude bs); try discriminate; reflexivity.
Qed.

Lemma getLocOrLatLong_both bs l la lo :
  Location bs = Some l -> Latitude bs = Some la -> Longitude bs = Some lo ->
  getLocOrLatLong bs
  = ("location=" ++ QueryEscape l ++ "&" ++ "latitude=" ++ fmt_f la
       ++ "&longitude=" ++ fmt_f lo, None).
Proof.
  unfold getLocOrLatLong. intros -> -> ->. cbn [isNil andb].
  unfold WriteString, Len. cbn [append String.length Nat.ltb Nat.leb].
  now rewrite !append_assoc.
Qed.

Lemma getLocOrLatLong_pair_only bs la lo :
  Location bs = None -> Latitude bs = Some la -> Longitude bs = Some lo ->
  getLocOrLatLong bs
  = ("latitude=" ++ fmt_f la ++ "&longitude=" ++ fmt_f lo, None).
Proof. unfold getLocOrLatLong. intros -> -> ->. reflexivity. Qed.

(** C1. A record without location and with only one of latitude and
    longitude set passes the location check: with only the latitude set
    [Params] returns the empty query string and no error, where the claim
    (and the comment on the record: latitude and longitude are required if
    the location is not specified) asks for the missing-location error. *)
Theorem Params_latitude_only_no_error :
  forall la : spec_float,
    Params (SetLatitude emptyParams la) = ("", None)
    /\ Params (SetTerm (SetLatitude emptyParams la) "food")
       = ("&term=food", None).
Proof. intros la. split; reflexivity. Qed.

(** The check of [getLocOrLatLong] is exactly: the three fields are nil. *)
Lemma Params_missing_location_iff bs :
  snd (Params bs) = Some errMissingLocation <-> noLocation bs = true.
Proof.
  split.
  - intros H. destruct (noLocation bs) eqn:E; [reflexivity|].
    destruct (getLocOrLatLong_ok bs E) as [loc Hloc].
    destruct (bothOpen bs) eqn:Eo.
    + rewrite (Params_bothOpen bs loc Hloc Eo) in H. discriminate.
    + rewrite (Params_clauses bs loc Hloc Eo) in H. discriminate.
  - intros H. now rewrite (Params_noLocation bs H).
Qed.

(** ** The open-now/open-at rule *)

(** C2, as stated, fails: with open_now and open_at set and no location,
    latitude or longitude, the location check comes first and [Params]
    returns the missing-location error. *)
Lemma Params_both_open_not_always_exclusive :
  ~ (forall bs b i, OpenNow bs = Some b -> OpenAt bs = Some i ->
       Params bs = ("", Some errOpenExclusive)).
Proof.
  intros H.
  specialize (H (SetOpenAt (SetOpenNow emptyParams true) 5) true 5
                eq_refl eq_refl).
  discriminate H.
Qed.

(** C2, amended. With open_now and open_at both set [Params] returns the
    empty string and an error: the mutual-exclusivity error when at least
    one of location, latitude and longitude is set, the missing-location
    error when none is. *)
Theorem Params_both_open bs b i :
  OpenNow bs = Some b -> OpenAt bs = Some i ->
  Params bs
  = ("", Some (if noLocation bs then errMissingLocation
               else errOpenExclusive)).
Proof.
  intros Hn Ha. destruct (noLocation bs) eqn:E.
  - now apply Params_noLocation.
  - destruct (getLocOrLatLong_ok bs E) as [loc Hloc].
    apply (Params_bothOpen bs loc Hloc).
    unfold bothOpen. now rewrite Hn, Ha.
Qed.

Lemma Params_both_open_witness :
  Params (SetOpenAt (SetOpenNow (SetLocation emptyParams "Austin, TX") true)
            1700000000)
  = ("", Some errOpenExclusive).
Proof.
  apply (Params_both_open
           (SetOpenAt (SetOpenNow (SetLocation emptyParams "Austin, TX") true)
              1700000000) true 1700000000); reflexivity.
Defined.

(** ** The rendered query string *)

(** C7. Location "Austin, TX" and term "food" render as
    location=Austin%2C+TX&term=food: the values escaped, no leading "?";
    and in general the query string is the location part followed by the
    clauses of the fields that are set, in the order of [fields], each
    behind one "&". *)
Theorem Params_austin_food :
  Params (SetTerm (SetLocation emptyParams "Austin, TX") "food")
  = ("location=Austin%2C+TX&term=food", None)
  /\ (forall bs loc,
        getLocOrLatLong bs = (loc, None) -> bothOpen bs = false ->
        Params bs = (loc ++ joinClauses (fields bs), None)).
Proof. split; [reflexivity | exact Params_clauses]. Qed.

Lemma Params_austin_food_witness :
  Params (SetTerm (SetLocation emptyParams "Austin, TX") "food")
  = ("location=Austin%2C+TX" ++ joinClauses [("term", "food")], None).
Proof.
  exact (proj2 Params_austin_food
           (SetTerm (SetLocation emptyParams "Austin, TX") "food")
           "location=Austin%2C+TX" eq_refl eq_refl).
Defined.

(** Every field set: the clauses come in the order location, latitude and
    longitude, term, radius, categories, locale, limit, offset, sort_by,
    price, open clause, attributes. *)
Example Params_all_fields :
  Params {| Term := Some "food"; Location := Some "Austin, TX";
            Latitude := Some f30; Longitude := Some fm97;
            Radius := Some 40000; Categories := Some "bars,french";
            Locale := Some "en_US"; Limit := Some 20; Offset := Some 0;
            SortBy := Some "best_match"; Price := Some "1, 2";
            OpenNow := Some true; OpenAt := None;
            Attributes := Some "hot_and_new" |}
  = ("location=Austin%2C+TX&latitude=30.000000&longitude=-97.000000"
     ++ "&term=food&radius=40000&categories=bars%2Cfrench&locale=en_US"
     ++ "&limit=20&offset=0&sort_by=best_match&price=1%2C+2&open_now=true"
     ++ "&attributes=hot_and_new", None).
Proof. reflexivity. Qed.

(** C8. Latitude 30.0, longitude -97.0 and no location: the query string
    is latitude=30.000000&longitude=-97.000000; and whatever other fields
    are set, the query string [Params] returns starts with that text and
    contains no "location=". *)
Theorem Params_lat_long_only :
  Params (SetLongitude (SetLatitude emptyParams f30) fm97)
  = ("latitude=30.000000&longitude=-97.000000", None)
  /\ (forall bs s,
        Location bs = None -> Latitude bs = Some f30 ->
        Longitude bs = Some fm97 -> Params bs = (s, None) ->
        HasPrefix s "latitude=30.000000&longitude=-97.000000" = true
        /\ Contains s "latitude=30.000000&longitude=-97.000000" = true
        /\ Contains s "location=" = false).
Proof.
  split; [reflexivity|].
  intros bs s Hl Hla Hlo HP.
  pose proof (getLocOrLatLong_pair_only bs f30 fm97 Hl Hla Hlo) as Hloc.
  destruct (bothOpen bs) eqn:Eo.
  - rewrite (Params_bothOpen bs _ Hloc Eo) in HP. discriminate.
  - rewrite (Params_clauses bs _ Hloc Eo) in HP.
    injection HP as <-.
    change ("latitude=" ++ fmt_f f30 ++ "&longitude=" ++ fmt_f fm97)
      with "latitude=30.000000&longitude=-97.000000".
    assert (Hpre : HasPrefix
              ("latitude=30.000000&longitude=-97.000000"
                 ++ joinClauses (fields bs))
              "latitude=30.000000&longitude=-97.000000" = true)
      by apply HasPrefix_app.
    split; [exact Hpre|]. split; [now apply HasPrefix_Contains|].
    refine (eq_trans
              (Contains_joinClauses
                 "latitude=30.000000&longitude=-97.000000" (fields bs)
                 "location" eq_refl eq_refl _) eq_refl).
    apply fields_no_suffix. reflexivity.
Qed.

Lemma Params_lat_long_only_witness :
  Contains "latitude=30.000000&longitude=-97.000000&term=food&limit=3"
    "location=" = false.
Proof.
  exact (proj2 (proj2 (proj2 Params_lat_long_only
           (SetTerm {| Term := None; Location := None; Latitude := Some f30;
                       Longitude := Some fm97; Radius := None;
                       Categories := None; Locale := None; Limit := Some 3;
                       Offset := None; SortBy := None; Price := None;
                       OpenNow := None; OpenAt := None; Attributes := None |}
              "food")
           "latitude=30.000000&longitude=-97.000000&term=food&limit=3"
           eq_refl eq_refl eq_refl eq_refl))).
Defined.

(** ** Location together with the coordinate pair *)

(** C9, as stated, fails: with location, latitude and longitude set and
    both open_now and open_at set as well, [Params] returns the empty
    string and the mutual-exclusivity error, so no clause at all. *)
Lemma Params_all_three_not_always_emitted :
  ~ (forall bs l la lo,
       Location bs = Some l -> Latitude bs = Some la ->
       Longitude bs = Some lo ->
       HasPrefix (fst (Params bs))
         ("location=" ++ QueryEscape l ++ "&" ++ "latitude=" ++ fmt_f la
            ++ "&longitude=" ++ fmt_f lo) = true).
Proof.
  intros H.
  specialize (H (SetOpenAt (SetOpenNow allThree true) 5)
                "Austin, TX" f30 fm97 eq_refl eq_refl eq_refl).
  discriminate H.
Qed.

(** C9, amended. With location, latitude and longitude all set, and
    open_now and open_at not both set, [Params] returns the location
    clause, "&", the latitude/longitude clause and then the other clauses:
    both forms are emitted, the location first. ([getLocOrLatLong] returns
    both whatever the other fields are.) *)
Theorem Params_location_and_pair bs l la lo :
  Location bs = Some l -> Latitude bs = Some la -> Longitude bs = Some lo ->
  bothOpen bs = false ->
  getLocOrLatLong bs
  = ("location=" ++ QueryEscape l ++ "&" ++ "latitude=" ++ fmt_f la
       ++ "&longitude=" ++ fmt_f lo, None)
  /\ Params bs
     = (("location=" ++ QueryEscape l ++ "&" ++ "latitude=" ++ fmt_f la
           ++ "&longitude=" ++ fmt_f lo) ++ joinClauses (fields bs), None).
Proof.
  intros Hl Hla Hlo Ho.
  pose proof (getLocOrLatLong_both bs l la lo Hl Hla Hlo) as Hloc.
  split; [exact Hloc|]. now apply Params_clauses.
Qed.

Lemma Params_location_and_pair_witness :
  Params (SetTerm allThree "food")
  = ("location=Austin%2C+TX&latitude=30.000000&longitude=-97.000000"
       ++ "&term=food", None).
Proof.
  exact (proj2 (Params_location_and_pair (SetTerm allThree "food")
                  "Austin, TX" f30 fm97 eq_refl eq_refl eq_refl eq_refl)).
Defined.

(** ** Location with half a coordinate pair *)

(** C10, as stated, fails: with the location and only the latitude set, and
    open_now and open_at both set, [Params] does not succeed. *)
Lemma Params_half_pair_not_always_success :
  ~ (forall bs l,
       Location bs = Some l ->
       xorb (isNil (Latitude bs)) (isNil (Longitude bs)) = true ->
       snd (Params bs) = None).
Proof.
  intros H.
  specialize (H (SetOpenAt
                   (SetOpenNow
                      (SetLatitude (SetLocation emptyParams "Austin, TX") f30)
                      true) 5)
                "Austin, TX" eq_refl eq_refl).
  discriminate H.
Qed.

(** C10, amended. With the location set, exactly one of latitude and
    longitude set, and open_now and open_at not both set, [Params]
    succeeds; the query string is the location clause followed by the
    other clauses and contains neither "latitude=" nor "longitude=". *)
Theorem Params_half_pair_dropped bs l :
  Location bs = Some l ->
  xorb (isNil (Latitude bs)) (isNil (Longitude bs)) = true ->
  bothOpen bs = false ->
  exists s,
    Params bs = (s, None)
    /\ s = "location=" ++ QueryEscape l ++ joinClauses (fields bs)
    /\ Contains s "latitude=" = false
    /\ Contains s "longitude=" = false.
Proof.
  intros Hl Hx Ho.
  assert (Hp : hasPair bs = false).
  { unfold hasPair.
    destruct (Latitude bs), (Longitude bs); try discriminate; reflexivity. }
  pose proof (getLocOrLatLong_location_only bs l Hl Hp) as Hloc.
  eexists. split; [apply (Params_clauses bs _ Hloc Ho)|].
  split; [now rewrite append_assoc|].
  assert (Hloc_eq : ("location=" ++ QueryEscape l)
                    = "location" ++ String eqc (QueryEscape l))
    by reflexivity.
  rewrite Hloc_eq.
  split.
  - refine (eq_trans
              (Contains_joinClauses _ (fields bs) "latitude" eq_refl eq_refl
                 _) _).
    + apply fields_no_suffix. reflexivity.
    + refine (eq_trans
                (Contains_clause "location" (QueryEscape l) "latitude"
                   eq_refl (QueryEscape_no_eq l) eq_refl) eq_refl).
  - refine (eq_trans
              (Contains_joinClauses _ (fields bs) "longitude" eq_refl eq_refl
                 _) _).
    + apply fields_no_suffix. reflexivity.
    + refine (eq_trans
                (Contains_clause "location" (QueryEscape l) "longitude"
                   eq_refl (QueryEscape_no_eq l) eq_refl) eq_refl).
Qed.

Lemma Params_half_pair_dropped_witness :
  exists s,
    Params (SetTerm (SetLatitude (SetLocation emptyParams "Austin, TX") f30)
              "food") = (s, None)
    /\ s = "location=" ++ QueryEscape "Austin, TX"
             ++ joinClauses
                  (fields
                     (SetTerm
                        (SetLatitude (SetLocation emptyParams "Austin, TX")
                           f30) "food"))
    /\ Contains s "latitude=" = false
    /\ Contains s "longitude=" = false.
Proof.
  apply (Params_half_pair_dropped
           (SetTerm (SetLatitude (SetLocation emptyParams "Austin, TX") f30)
              "food") "Austin, TX"); reflexivity.
Defined.

(** ** The heap *)

Lemma update_nth_last {A : Type} (h : list A) (r r' : A) :
  update_nth (List.length h) r' (h ++ [r]) = (h ++ [r'])%list.
Proof. induction h as [|x h IH]; simpl; [reflexivity | now rewrite IH]. Qed.

Lemma nth_last {A : Type} (h t : list A) (r d : A) :
  nth (List.length h) (h ++ r :: t) d = r.
Proof. induction h as [|x h IH]; simpl; [reflexivity | exact IH]. Qed.

(** ** Request construction *)

(** What [getRequest] does to the world: the request it returns is the
    one http.NewRequest allocated, with the bearer token set; the copy
    [req.WithContext] made is left behind on the heap. *)
Lemma getRequest_run lib yf ctx method url w :
  getRequest lib yf ctx method url w
  = let m := if String.eqb method "" then "GET" else method in
    let w1 := {| heap := heap w;
                 trace := trace w ++ [EvNewRequest method url] |} in
    if negb (validMethod m)
    then (inr (ErrCollaborator "net/http" "invalid method"), w1)
    else
      match url_Parse lib url with
      | Some err => (inr err, w1)
      | None =>
          (inl (List.length (heap w)),
           {| heap := heap w ++ authRequest yf m url
                        :: contextCopy yf ctx m url;
              trace := trace w ++ [EvNewRequest method url] |})
      end.
Proof.
  unfold getRequest, http_NewRequest, bind, emit, ret. cbv zeta.
  destruct (negb (validMethod (if String.eqb method "" then "GET" else method)));
    [reflexivity|].
  destruct (url_Parse lib url) as [err|]; [reflexivity|].
  unfold alloc, req_Header_Set, req_WithContext, bind, load, store, ret.
  cbn [heap trace]. rewrite nth_last, update_nth_last.
  destruct ctx as [c|]; cbn [heap trace contextCopy].
  - rewrite nth_last. unfold alloc. cbn [heap trace].
    unfold authRequest, Header_Set. cbn [filter Method URL req_Header req_ctx].
    now rewrite <- app_assoc.
  - reflexivity.
Qed.

(** The tail of the four [...Response] functions: build the request, hand
    it to the transport. *)
Lemma getRequest_then_Do lib yf ctx url w :
  (let* r := getRequest lib yf ctx "GET" url in
   match r with
   | inr err => ret (inr err)
   | inl req => client_Do yf req
   end) w
  = match url_Parse lib url with
    | Some err =>
        (inr err,
         {| heap := heap w; trace := trace w ++ [EvNewRequest "GET" url] |})
    | None =>
        (client yf (authRequest yf "GET" url),
         {| heap := heap w ++ authRequest yf "GET" url
                      :: contextCopy yf ctx "GET" url;
            trace := trace w ++ [EvNewRequest "GET" url;
                                 EvDo (authRequest yf "GET" url)] |})
    end.
Proof.
  unfold bind at 1. rewrite getRequest_run.
  change (String.eqb "GET" "") with false. cbv iota zeta.
  change (negb (validMethod "GET")) with false. cbv iota.
  destruct (url_Parse lib url) as [err|]; [reflexivity|].
  unfold client_Do, bind, load, emit, ret. cbn [heap trace].
  rewrite nth_last. now rewrite <- app_assoc.
Qed.

(** C4. The request [getRequest] returns carries the background context
    whatever context it was given: [req.WithContext(ctx)] makes a copy and
    the copy is dropped. The claim asks for the caller's context on the
    request handed to the transport. *)
Theorem getRequest_context_dropped lib yf ctx method url w p w' :
  getRequest lib yf ctx method url w = (inl p, w') ->
  req_ctx (nth p (heap w') zeroRequest) = Background.
Proof.
  rewrite getRequest_run. cbv zeta.
  destruct (negb (validMethod _)); [discriminate|].
  destruct (url_Parse lib url); [discriminate|].
  intros [= <- <-]. cbn [heap]. now rewrite nth_last.
Qed.

Lemma getRequest_context_dropped_witness :
  req_ctx
    (nth 0
       (heap (snd (getRequest stubLibrary (stubYelp notFound)
                     (Some (Derived 1)) "GET"
                     "https://api.yelp.com/v3/businesses/abc" emptyWorld)))
       zeroRequest)
  = Background.
Proof.
  apply (getRequest_context_dropped stubLibrary (stubYelp notFound)
           (Some (Derived 1)) "GET" "https://api.yelp.com/v3/businesses/abc"
           emptyWorld 0%nat).
  reflexivity.
Defined.

(** The request handed to the transport by the phone search run with the
    derived context 1: it carries the background context. *)
Example phone_search_request_context :
  trace (snd (SearchBusinessesByPhoneResponse stubLibrary (stubYelp notFound)
                (Some (Derived 1)) "+15125550100" emptyWorld))
  = [EvNewRequest "GET"
       "https://api.yelp.com/v3/businesses/search/phone?phone=%2B15125550100";
     EvDo {| Method := "GET";
             URL := "https://api.yelp.com/v3/businesses/search/phone?phone=%2B15125550100";
             req_Header := [("Authorization", ["Bearer key"])];
             req_ctx := Background |}].
Proof. reflexivity. Qed.

(** ** Trimming *)

Lemma slice_from_get s i c :
  String.get i s = Some c -> exists rest, slice_from s i = String c rest.
Proof.
  unfold slice_from. revert i.
  induction s as [|x s IH]; intros i H; [discriminate|].
  destruct i as [|i]; cbn [String.get] in H.
  - injection H as ->. cbn [String.length Nat.sub substring]. eauto.
  - cbn [String.length Nat.sub substring]. now apply IH.
Qed.

Lemma get_lt s i :
  (i < String.length s)%nat -> exists c, String.get i s = Some c.
Proof.
  revert i. induction s as [|x s IH]; intros i H; cbn [String.length] in H.
  - lia.
  - destruct i as [|i]; cbn [String.get]; [eauto|]. apply IH. lia.
Qed.

Lemma asciiBlank_get s i c :
  asciiBlank s = true -> String.get i s = Some c -> isBlank c = true.
Proof.
  revert i. induction s as [|x s IH]; intros i Hb H; [discriminate|].
  cbn [asciiBlank] in Hb. apply andb_prop in Hb. destruct Hb as [Hx Hs].
  destruct i as [|i]; cbn [String.get] in H.
  - now injection H as <-.
  - now apply (IH i).
Qed.

Lemma isBlank_decode c rest :
  isBlank c = true ->
  DecodeRuneInString (String c rest) = (byte_of c, 1%nat)
  /\ IsSpace (byte_of c) = true.
Proof.
  destruct c as [[] [] [] [] [] [] [] []]; intros H;
    try discriminate H; split; reflexivity.
Qed.

Lemma indexNotSpace_blank s fuel i :
  asciiBlank s = true -> indexNotSpace fuel s i = None.
Proof.
  intros Hb. revert i. induction fuel as [|fuel IH]; intros i;
    cbn [indexNotSpace]; [reflexivity|].
  destruct (i <? String.length s)%nat eqn:E; [|reflexivity].
  apply Nat.ltb_lt in E. destruct (get_lt s i E) as [c Hc].
  destruct (slice_from_get s i c Hc) as [rest ->].
  destruct (isBlank_decode c rest (asciiBlank_get s i c Hb Hc)) as [-> ->].
  apply IH.
Qed.

(** A string of ASCII white space, the empty string included, trims to
    the empty string. *)
Lemma TrimSpace_ascii_blank s : asciiBlank s = true -> TrimSpace s = "".
Proof.
  intros Hb. unfold TrimSpace, TrimLeftSpace.
  now rewrite (indexNotSpace_blank s _ 0 Hb).
Qed.

(** Leading and trailing white space goes, also when it is encoded on
    several bytes (the no-break space C2 A0); inner white space stays. *)
Example TrimSpace_examples :
  TrimSpace "  +1 512 555 0100 " = "+1 512 555 0100"
  /\ TrimSpace blankPhone = ""
  /\ TrimSpace (blankPhone ++ "en_US" ++ blankPhone) = "en_US".
Proof. repeat split; reflexivity. Qed.

(** ** Phone search *)

(** C5. A phone number that trims to the empty string is refused with
    "phone number is required" and the world is left as it was: no request
    is constructed, nothing is handed to the transport. Any other phone
    number goes on to http.NewRequest with the URL of the phone route and
    the escaped number, and from there to the transport. *)
Theorem phone_search_validation lib yf ctx phoneNumber w :
  (TrimSpace phoneNumber = "" ->
     SearchBusinessesByPhoneResponse lib yf ctx phoneNumber w
     = (inr errPhoneRequired, w)
     /\ SearchBusinessesByPhoneWithContext lib yf ctx phoneNumber w
        = ((None, Some errPhoneRequired), w))
  /\ (TrimSpace phoneNumber <> "" ->
      SearchBusinessesByPhoneResponse lib yf ctx phoneNumber w
      = match url_Parse lib (phoneURL phoneNumber) with
        | Some err =>
            (inr err,
             {| heap := heap w;
                trace := trace w
                         ++ [EvNewRequest "GET" (phoneURL phoneNumber)] |})
        | None =>
            (client yf (authRequest yf "GET" (phoneURL phoneNumber)),
             {| heap := heap w
                        ++ authRequest yf "GET" (phoneURL phoneNumber)
                           :: contextCopy yf ctx "GET" (phoneURL phoneNumber);
                trace := trace w
                         ++ [EvNewRequest "GET" (phoneURL phoneNumber);
                             EvDo (authRequest yf "GET"
                                     (phoneURL phoneNumber))] |})
        end).
Proof.
  split.
  - intros H.
    assert (HR : SearchBusinessesByPhoneResponse lib yf ctx phoneNumber w
                 = (inr errPhoneRequired, w)).
    { unfold SearchBusinessesByPhoneResponse. rewrite H. reflexivity. }
    split; [exact HR|].
    unfold SearchBusinessesByPhoneWithContext, bind. rewrite HR.
    reflexivity.
  - intros H. unfold SearchBusinessesByPhoneResponse.
    apply String.eqb_neq in H. rewrite H.
    exact (getRequest_then_Do lib yf ctx (phoneURL phoneNumber) w).
Qed.

Lemma phone_search_validation_witness :
  SearchBusinessesByPhoneWithContext stubLibrary (stubYelp notFound)
    (Some (Derived 1)) blankPhone emptyWorld
  = ((None, Some errPhoneRequired), emptyWorld)
  /\ SearchBusinessesByPhoneResponse stubLibrary (stubYelp notFound) None
       "+1 512 555 0100" emptyWorld
     = (inl notFound,
        {| heap := [authRequest (stubYelp notFound) "GET"
                      "https://api.yelp.com/v3/businesses/search/phone?phone=%2B1+512+555+0100"];
           trace := [EvNewRequest "GET"
                       "https://api.yelp.com/v3/businesses/search/phone?phone=%2B1+512+555+0100";
                     EvDo (authRequest (stubYelp notFound) "GET"
                             "https://api.yelp.com/v3/businesses/search/phone?phone=%2B1+512+555+0100")] |}).
Proof.
  split.
  - apply (proj1 (phone_search_validation stubLibrary (stubYelp notFound)
                    (Some (Derived 1)) blankPhone emptyWorld)).
    reflexivity.
  - apply (proj2 (phone_search_validation stubLibrary (stubYelp notFound)
                    None "+1 512 555 0100" emptyWorld)).
    discriminate.
Defined.

(** ** Status codes *)

(** C6, as stated, fails on the details function of the earlier revision,
    which has no status check: answered with 404 it runs the decoder on the
    body and returns the decoder's outcome, not the error made of the
    status text. *)
Lemma non_200_decoded_by_earlier_details :
  ~ (forall lib yf ctx busID locale w resp w',
       SearchBusinessDetailsWithLocaleResponse lib yf ctx busID locale w
       = (inl resp, w') ->
       StatusCode resp <> StatusOK ->
       Rev2.SearchBusinessDetailsWithLocale lib yf ctx busID locale w
       = ((None, Some (errors_New (Status resp))), w')).
Proof.
  intros H.
  specialize (H stubLibrary (stubYelp notFound) None "some-business" ""
                emptyWorld notFound _ eq_refl ltac:(discriminate)).
  discriminate H.
Qed.

(** C6, amended. In the current revision (the one with the phone and
    reviews routes), in the search, details and phone-search operations a
    response whose status code is not 200 comes back as the error made of
    its status text, with a nil result, and the world is the one the
    request left: the body is neither decoded nor closed. *)
Theorem non_200_status_is_error lib yf ctx :
  (forall bus w resp w',
     SearchBusinessResponse lib yf ctx bus w = (inl resp, w') ->
     StatusCode resp <> StatusOK ->
     SearchBusinessWithContext lib yf ctx bus w
     = ((None, Some (errors_New (Status resp))), w'))
  /\ (forall busID locale w resp w',
        SearchBusinessDetailsWithLocaleResponse lib yf ctx busID locale w
        = (inl resp, w') ->
        StatusCode resp <> StatusOK ->
        SearchBusinessDetailsWithLocale lib yf ctx busID locale w
        = ((None, Some (errors_New (Status resp))), w'))
  /\ (forall phoneNumber w resp w',
        SearchBusinessesByPhoneResponse lib yf ctx phoneNumber w
        = (inl resp, w') ->
        StatusCode resp <> StatusOK ->
        SearchBusinessesByPhoneWithContext lib yf ctx phoneNumber w
        = ((None, Some (errors_New (Status resp))), w')).
Proof.
  repeat split; intros;
    match goal with
    | H : _ = (inl _, _), N : StatusCode _ <> _ |- _ =>
        apply Z.eqb_neq in N;
        unfold SearchBusinessWithContext, SearchBusinessDetailsWithLocale,
          SearchBusinessesByPhoneWithContext, bind;
        rewrite H, N; reflexivity
    end.
Qed.

Lemma non_200_status_is_error_witness :
  SearchBusinessWithContext stubLibrary (stubYelp notFound) None
    (SetTerm (SetLocation emptyParams "Austin, TX") "food") emptyWorld
  = ((None, Some (errors_New "404 Not Found")),
     snd (SearchBusinessResponse stubLibrary (stubYelp notFound) None
            (SetTerm (SetLocation emptyParams "Austin, TX") "food")
            emptyWorld))
  /\ SearchBusinessDetailsWithLocale stubLibrary (stubYelp notFound) None
       "some-business" "en_US" emptyWorld
     = ((None, Some (errors_New "404 Not Found")),
        snd (SearchBusinessDetailsWithLocaleResponse stubLibrary
               (stubYelp notFound) None "some-business" "en_US" emptyWorld))
  /\ SearchBusinessesByPhoneWithContext stubLibrary (stubYelp notFound) None
       "+15125550100" emptyWorld
     = ((None, Some (errors_New "404 Not Found")),
        snd (SearchBusinessesByPhoneResponse stubLibrary (stubYelp notFound)
               None "+15125550100" emptyWorld)).
Proof.
  pose proof (non_200_status_is_error stubLibrary (stubYelp notFound) None)
    as [Hs [Hd Hp]].
  split; [|split].
  - apply (Hs _ emptyWorld notFound); [reflexivity | discriminate].
  - apply (Hd _ _ emptyWorld notFound); [reflexivity | discriminate].
  - apply (Hp _ emptyWorld notFound); [reflexivity | discriminate].
Defined.

(** The trace of a search answered with 404: the request is constructed
    and sent, nothing is decoded. *)
Example search_404_trace :
  trace (snd (SearchBusinessWithContext stubLibrary (stubYelp notFound) None
                (SetTerm (SetLocation emptyParams "Austin, TX") "food")
                emptyWorld))
  = [EvNewRequest "GET"
       "https://api.yelp.com/v3/businesses/search?location=Austin%2C+TX&term=food";
     EvDo (authRequest (stubYelp notFound) "GET"
             "https://api.yelp.com/v3/businesses/search?location=Austin%2C+TX&term=food")].
Proof. reflexivity. Qed.

(** The earlier revision has no status check: the details route answered
    with 404 runs the decoder on the body and returns what it returns. *)
Example Rev2_details_404_decodes :
  Rev2.SearchBusinessDetailsWithLocale stubLibrary (stubYelp notFound) None
    "some-business" "" emptyWorld
  = ((None, Some (ErrCollaborator "encoding/json" "missing")),
     {| heap := [authRequest (stubYelp notFound) "GET"
                   "https://api.yelp.com/v3/businesses/some-business"];
        trace := [EvNewRequest "GET"
                    "https://api.yelp.com/v3/businesses/some-business";
                  EvDo (authRequest (stubYelp notFound) "GET"
                          "https://api.yelp.com/v3/businesses/some-business");
                  EvDecode "missing"] |}).
Proof. reflexivity. Qed.

(** ** Reviews *)

(** C3. The reviews operation decodes the body of a 200 and of a 301
    response alike: whenever the body decodes to a record, that record is
    the result, its migration-error field included. So a 301 body with an
    error object populates the field, and so does a 200 body with one,
    where the claim (and the comment on the function: the error field will
    only be populated if an HTTP 301 status code is returned) says that a
    200 response never populates it. *)
Theorem reviews_decoding_ignores_status
    lib yf ctx busID locale w resp w' rd :
  SearchBusinessReviewsWithLocaleResponse lib yf ctx busID locale w
  = (inl resp, w') ->
  StatusCode resp = StatusOK \/ StatusCode resp = StatusMovedPermanently ->
  json_ReviewsData lib (Body resp) = (Some rd, None) ->
  SearchBusinessReviewsWithLocale lib yf ctx busID locale w
  = ((Some rd, None),
     {| heap := heap w';
        trace := trace w' ++ [EvDecode (Body resp); EvClose (Body resp)] |}).
Proof.
  intros HR Hs Hd. unfold SearchBusinessReviewsWithLocale, bind at 1.
  rewrite HR.
  assert (Hc : negb (StatusCode resp =? StatusOK)
               && negb (StatusCode resp =? StatusMovedPermanently) = false).
  { destruct Hs as [-> | ->]; reflexivity. }
  rewrite Hc. unfold decode, Body_Close, bind, emit, ret. rewrite Hd.
  cbn [heap trace]. now rewrite <- app_assoc.
Qed.

Lemma reviews_decoding_ignores_status_witness :
  fst (SearchBusinessReviewsWithLocale stubLibrary (stubYelp okMigrated) None
         "old-business-id" "" emptyWorld)
  = (Some migratedReviews, None)
  /\ fst (SearchBusinessReviewsWithLocale stubLibrary
            (stubYelp movedMigrated) None "old-business-id" "" emptyWorld)
     = (Some migratedReviews, None).
Proof.
  split.
  - rewrite (reviews_decoding_ignores_status stubLibrary
               (stubYelp okMigrated) None "old-business-id" "" emptyWorld
               okMigrated _ migratedReviews eq_refl (or_introl eq_refl)
               eq_refl).
    reflexivity.
  - rewrite (reviews_decoding_ignores_status stubLibrary
               (stubYelp movedMigrated) None "old-business-id" ""
               emptyWorld movedMigrated _ migratedReviews eq_refl
               (or_intror eq_refl) eq_refl).
    reflexivity.
Defined.

(** Any other status is the error made of the status text. *)
Lemma reviews_other_status_is_error lib yf ctx busID locale w resp w' :
  SearchBusinessReviewsWithLocaleResponse lib yf ctx busID locale w
  = (inl resp, w') ->
  StatusCode resp <> StatusOK ->
  StatusCode resp <> StatusMovedPermanently ->
  SearchBusinessReviewsWithLocale lib yf ctx busID locale w
  = ((None, Some (errors_New (Status resp))), w').
Proof.
  intros HR H1 H2. unfold SearchBusinessReviewsWithLocale, bind.
  apply Z.eqb_neq in H1, H2. now rewrite HR, H1, H2.
Qed.

(** * Further properties of the parameter builder *)

(** ** Bytes of the rendered values *)

Lemma allIn_app P a b : allIn P (a ++ b) = allIn P a && allIn P b.
Proof.
  induction a as [|x a IH]; cbn [append allIn]; [reflexivity|].
  now rewrite IH, andb_assoc.
Qed.

Lemma allIn_notin P c s :
  P c = false -> allIn P s = true -> notin c s = true.
Proof.
  intros Hc. induction s as [|x s IH]; cbn [allIn notin]; [reflexivity|].
  intros H. apply andb_prop in H. destruct H as [Hx Hs].
  rewrite (IH Hs), andb_true_r. apply negb_true_iff.
  destruct (Ascii.eqb x c) eqn:E; [|reflexivity].
  apply Ascii.eqb_eq in E. congruence.
Qed.

Lemma allIn_impl (P Q : ascii -> bool) s :
  (forall c, P c = true -> Q c = true) ->
  allIn P s = true -> allIn Q s = true.
Proof.
  intros HPQ. induction s as [|x s IH]; cbn [allIn]; [reflexivity|].
  intros H. apply andb_prop in H. destruct H as [Hx Hs].
  now rewrite (HPQ x Hx), (IH Hs).
Qed.

Lemma countByte_app c a b :
  countByte c (a ++ b) = (countByte c a + countByte c b)%nat.
Proof.
  induction a as [|x a IH]; cbn [append countByte]; [reflexivity|].
  rewrite IH. lia.
Qed.

Lemma notin_countByte c s : notin c s = true -> countByte c s = O.
Proof.
  induction s as [|x s IH]; cbn [notin countByte]; [reflexivity|].
  intros H. apply andb_prop in H. destruct H as [Hx Hs].
  apply negb_true_iff in Hx. now rewrite Hx, (IH Hs).
Qed.

Lemma safeByte_not_eq : safeByte eqc = false.
Proof. reflexivity. Qed.

Lemma safeByte_not_amp : safeByte ampc = false.
Proof. reflexivity. Qed.

Lemma safeByte_queryByte c : safeByte c = true -> queryByte c = true.
Proof. unfold queryByte. now intros ->. Qed.

Lemma escape_byte_safe c : allIn safeByte (escape_byte c) = true.
Proof. destruct c as [[] [] [] [] [] [] [] []]; reflexivity. Qed.

Lemma QueryEscape_safe s : allIn safeByte (QueryEscape s) = true.
Proof.
  induction s as [|c s IH]; [reflexivity|].
  cbn [QueryEscape]. now rewrite allIn_app, escape_byte_safe, IH.
Qed.

Lemma string_of_uint_safe d :
  allIn safeByte (NilEmpty.string_of_uint d) = true.
Proof. induction d; cbn [NilEmpty.string_of_uint allIn]; auto. Qed.

Lemma fmt_d_safe i : allIn safeByte (fmt_d i) = true.
Proof.
  unfold fmt_d, NilEmpty.string_of_int.
  destruct (Z.to_int i); cbn [allIn]; now rewrite ?string_of_uint_safe.
Qed.

Lemma fmt_v_bool_safe b : allIn safeByte (fmt_v_bool b) = true.
Proof. now destruct b. Qed.

Lemma substring_allIn P n m s :
  allIn P s = true -> allIn P (substring n m s) = true.
Proof.
  revert n m. induction s as [|x s IH]; intros n m H.
  - now destruct n, m.
  - cbn [allIn] in H. apply andb_prop in H. destruct H as [Hx Hs].
    destruct n as [|n]; cbn [substring].
    + destruct m as [|m]; cbn [allIn]; [reflexivity|].
      now rewrite Hx, (IH 0%nat m Hs).
    + now apply IH.
Qed.

Lemma fmt_f_safe x : allIn safeByte (fmt_f x) = true.
Proof.
  destruct x as [s | s | | s m e];
    [destruct s; reflexivity | destruct s; reflexivity | reflexivity |].
  unfold fmt_f, pad6. cbv zeta.
  rewrite !allIn_app, !fmt_d_safe, substring_allIn by reflexivity.
  now destruct s.
Qed.

(** ** The location part *)

Lemma getLocOrLatLong_locFields bs :
  noLocation bs = false ->
  getLocOrLatLong bs = (joinAmp (locFields bs), None).
Proof.
  intros H. unfold getLocOrLatLong. fold (noLocation bs). rewrite H.
  unfold locFields, pairField, WriteString, Len.
  destruct (Location bs) as [l|], (Latitude bs) as [la|],
    (Longitude bs) as [lo|];
    cbn [optField List.app joinAmp joinClauses clause fst snd append
         String.length Nat.ltb Nat.leb];
    rewrite ?append_assoc, ?append_nil_r; reflexivity.
Qed.

Lemma Params_cases bs :
  Params bs
  = if noLocation bs then ("", Some errMissingLocation)
    else if bothOpen bs then ("", Some errOpenExclusive)
    else (joinAmp (locFields bs) ++ joinClauses (fields bs), None).
Proof.
  destruct (noLocation bs) eqn:El; [now apply Params_noLocation|].
  pose proof (getLocOrLatLong_locFields bs El) as Hloc.
  destruct (bothOpen bs) eqn:Eo.
  - exact (Params_bothOpen bs _ Hloc Eo).
  - exact (Params_clauses bs _ Hloc Eo).
Qed.

(** X1. [Params] has exactly two ways to fail, and returns the empty string
    when it does: the missing-location error when location, latitude and
    longitude are all nil; otherwise the mutual-exclusivity error when
    open_now and open_at are both set. In every other case it succeeds with
    the location clauses joined by "&" followed by the clauses of the other
    set fields, each behind its own "&". *)
Theorem Params_total bs :
  Params bs
  = if noLocation bs then ("", Some errMissingLocation)
    else if bothOpen bs then ("", Some errOpenExclusive)
    else (joinAmp (locFields bs) ++ joinClauses (fields bs), None).
Proof. exact (Params_cases bs). Qed.

(** ** Keys and values are made of safe bytes *)

Lemma optField_safe {A : Type} key (f : option A) r :
  allIn safeByte key = true -> (forall v, allIn safeByte (r v) = true) ->
  Forall (fun kv => allIn safeByte (fst kv) = true
                    /\ allIn safeByte (snd kv) = true) (optField key f r).
Proof.
  intros Hk Hr. destruct f; constructor; [split; [exact Hk | apply Hr]|].
  constructor.
Qed.

Lemma fields_safe bs :
  Forall (fun kv => allIn safeByte (fst kv) = true
                    /\ allIn safeByte (snd kv) = true)
    (locFields bs ++ fields bs).
Proof.
  unfold locFields, fields.
  repeat (apply Forall_app; split);
    try (apply optField_safe;
         [reflexivity | first [apply QueryEscape_safe | apply fmt_d_safe]]).
  - unfold pairField. destruct (Latitude bs), (Longitude bs);
      repeat constructor; apply fmt_f_safe.
  - unfold openField.
    destruct (OpenNow bs); [|destruct (OpenAt bs)]; repeat constructor;
      cbn [fst snd]; first [apply fmt_v_bool_safe | apply fmt_d_safe].
Qed.

Lemma safe_no_eq s : allIn safeByte s = true -> notin eqc s = true.
Proof. apply allIn_notin. reflexivity. Qed.

Lemma safe_no_amp s : allIn safeByte s = true -> notin ampc s = true.
Proof. apply allIn_notin. reflexivity. Qed.

(** ** Which clauses a query string contains *)

Lemma Contains_joinClauses_keys a fs w :
  notin ampc w = true -> notin eqc w = true ->
  Forall (fun kv => allIn safeByte (fst kv) = true
                    /\ allIn safeByte (snd kv) = true) fs ->
  Contains (a ++ joinClauses fs) (w ++ String eqc "")
  = Contains a (w ++ String eqc "")
    || existsb (fun kv => HasSuffix (fst kv) w) fs.
Proof.
  intros Ha He HF. revert a.
  induction HF as [|[k v] fs [Hk Hv] HF IH]; intros a.
  - cbn [joinClauses existsb]. now rewrite append_nil_r, orb_false_r.
  - change (Contains (a ++ String ampc (clause (k, v) ++ joinClauses fs))
              (w ++ String eqc "")
            = Contains a (w ++ String eqc "")
              || existsb (fun kv => HasSuffix (fst kv) w) ((k, v) :: fs)).
    cbn [fst snd existsb] in *.
    rewrite Contains_sep.
    + rewrite IH.
      change (clause (k, v)) with (k ++ String eqc v).
      rewrite (Contains_clause k v w (safe_no_eq k Hk) (safe_no_eq v Hv) He).
      now rewrite orb_assoc.
    + rewrite notin_app, Ha. reflexivity.
    + destruct w; discriminate.
Qed.

Lemma Contains_joinAmp_keys fs gs w :
  notin ampc w = true -> notin eqc w = true ->
  Forall (fun kv => allIn safeByte (fst kv) = true
                    /\ allIn safeByte (snd kv) = true) (fs ++ gs) ->
  Contains (joinAmp fs ++ joinClauses gs) (w ++ String eqc "")
  = existsb (fun kv => HasSuffix (fst kv) w) (fs ++ gs)%list.
Proof.
  intros Ha He HF. destruct fs as [|[k v] fs].
  - cbn [joinAmp List.app] in *.
    rewrite (Contains_joinClauses_keys "" gs w Ha He HF).
    rewrite Contains_nil_l by (destruct w; discriminate). reflexivity.
  - cbn [joinAmp List.app existsb fst] in *.
    rewrite append_assoc, <- joinClauses_app.
    inversion HF as [|kv l [Hk Hv] HF' E]; subst.
    rewrite (Contains_joinClauses_keys _ (fs ++ gs) w Ha He HF').
    change (clause (k, v)) with (k ++ String eqc v).
    cbn [fst snd] in *.
    now rewrite (Contains_clause k v w (safe_no_eq k Hk) (safe_no_eq v Hv) He).
Qed.

Lemma existsb_optField {A : Type} (g : string -> bool) key (f : option A) r :
  existsb (fun kv => g (fst kv)) (optField key f r)
  = g key && negb (isNil f).
Proof.
  destruct f; cbn [optField existsb fst isNil negb].
  - now rewrite orb_false_r, andb_true_r.
  - now rewrite andb_false_r.
Qed.

Lemma existsb_pairField (g : string -> bool) bs :
  existsb (fun kv => g (fst kv)) (pairField bs)
  = (g "latitude" || g "longitude") && hasPair bs.
Proof.
  unfold pairField, hasPair.
  destruct (Latitude bs), (Longitude bs);
    cbn [existsb fst isNil negb andb];
    destruct (g "latitude"), (g "longitude"); reflexivity.
Qed.

Lemma existsb_openField (g : string -> bool) bs :
  bothOpen bs = false ->
  existsb (fun kv => g (fst kv)) (openField bs)
  = (g "open_now" && negb (isNil (OpenNow bs)))
    || (g "open_at" && negb (isNil (OpenAt bs))).
Proof.
  unfold openField, bothOpen.
  destruct (OpenNow bs), (OpenAt bs); cbn [isNil negb andb];
    try discriminate; intros _; cbn [existsb fst];
    destruct (g "open_now"), (g "open_at"); reflexivity.
Qed.

Lemma Params_success bs s :
  Params bs = (s, None) ->
  noLocation bs = false /\ bothOpen bs = false
  /\ s = joinAmp (locFields bs) ++ joinClauses (fields bs).
Proof.
  rewrite Params_cases.
  destruct (noLocation bs); [discriminate|].
  destruct (bothOpen bs); [discriminate|].
  now intros [= <-].
Qed.

(** The pattern [w=] occurs in the query string exactly if the field of a
    key that ends in [w] is set. *)
Lemma Contains_Params bs s w :
  Params bs = (s, None) ->
  notin ampc w = true -> notin eqc w = true ->
  let g := fun k => HasSuffix k w in
  Contains s (w ++ String eqc "")
  = (g "location" && negb (isNil (Location bs)))
    || ((g "latitude" || g "longitude") && hasPair bs)
    || (g "term" && negb (isNil (Term bs)))
    || (g "radius" && negb (isNil (Radius bs)))
    || (g "categories" && negb (isNil (Categories bs)))
    || (g "locale" && negb (isNil (Locale bs)))
    || (g "limit" && negb (isNil (Limit bs)))
    || (g "offset" && negb (isNil (Offset bs)))
    || (g "sort_by" && negb (isNil (SortBy bs)))
    || (g "price" && negb (isNil (Price bs)))
    || (g "open_now" && negb (isNil (OpenNow bs)))
    || (g "open_at" && negb (isNil (OpenAt bs)))
    || (g "attributes" && negb (isNil (Attributes bs))).
Proof.
  intros HP Ha He g. destruct (Params_success bs s HP) as [_ [Ho ->]].
  rewrite (Contains_joinAmp_keys _ _ w Ha He (fields_safe bs)).
  unfold locFields, fields. rewrite !existsb_app.
  rewrite !(existsb_optField g), (existsb_pairField g).
  pose proof (existsb_openField g bs Ho) as Hopen.
  unfold g in *. cbv beta in Hopen. rewrite Hopen.
  now rewrite !orb_assoc.
Qed.

Ltac presence HP key :=
  refine (eq_trans (Contains_Params _ _ key HP eq_refl eq_refl) _);
  cbv [HasSuffix String.eqb Ascii.eqb Bool.eqb orb andb];
  match goal with |- _ = ?present => destruct present end;
  reflexivity.

(** X2. In a query string [Params] returns, the text "key=" of a field
    occurs exactly if that field is set (also when it is set to a zero
    value such as offset 0 or open_now false); "latitude=" and "longitude="
    occur exactly if latitude and longitude are both set. No value can
    make the key of another field appear. *)
Theorem Params_clause_presence bs s :
  Params bs = (s, None) ->
  Contains s "location=" = negb (isNil (Location bs))
  /\ Contains s "latitude=" = hasPair bs
  /\ Contains s "longitude=" = hasPair bs
  /\ Contains s "term=" = negb (isNil (Term bs))
  /\ Contains s "radius=" = negb (isNil (Radius bs))
  /\ Contains s "categories=" = negb (isNil (Categories bs))
  /\ Contains s "locale=" = negb (isNil (Locale bs))
  /\ Contains s "limit=" = negb (isNil (Limit bs))
  /\ Contains s "offset=" = negb (isNil (Offset bs))
  /\ Contains s "sort_by=" = negb (isNil (SortBy bs))
  /\ Contains s "price=" = negb (isNil (Price bs))
  /\ Contains s "open_now=" = negb (isNil (OpenNow bs))
  /\ Contains s "open_at=" = negb (isNil (OpenAt bs))
  /\ Contains s "attributes=" = negb (isNil (Attributes bs)).
Proof.
  intros HP. repeat split.
  - presence HP "location".
  - presence HP "latitude".
  - presence HP "longitude".
  - presence HP "term".
  - presence HP "radius".
  - presence HP "categories".
  - presence HP "locale".
  - presence HP "limit".
  - presence HP "offset".
  - presence HP "sort_by".
  - presence HP "price".
  - presence HP "open_now".
  - presence HP "open_at".
  - presence HP "attributes".
Qed.

Lemma Params_clause_presence_witness :
  Contains "location=term%3Dx&offset=0&open_now=false" "term=" = false
  /\ Contains "location=term%3Dx&offset=0&open_now=false" "offset=" = true
  /\ Contains "location=term%3Dx&offset=0&open_now=false" "open_now=" = true.
Proof.
  pose proof (Params_clause_presence
                (SetOpenNow (SetOffset (SetLocation emptyParams "term=x") 0)
                   false)
                "location=term%3Dx&offset=0&open_now=false" eq_refl) as H.
  repeat split; apply H.
Defined.

(** ** Separators *)

Lemma countByte_eq_joinClauses fs :
  Forall (fun kv => allIn safeByte (fst kv) = true
                    /\ allIn safeByte (snd kv) = true) fs ->
  countByte eqc (joinClauses fs) = List.length fs
  /\ countByte ampc (joinClauses fs) = List.length fs.
Proof.
  induction 1 as [|[k v] fs [Hk Hv] HF [IHe IHa]]; [split; reflexivity|].
  cbn [fst snd] in *.
  change (joinClauses ((k, v) :: fs))
    with (String ampc (k ++ String eqc v) ++ joinClauses fs).
  rewrite !countByte_app. cbn [countByte].
  rewrite !countByte_app. cbn [countByte].
  rewrite (notin_countByte eqc k (safe_no_eq k Hk)),
    (notin_countByte eqc v (safe_no_eq v Hv)),
    (notin_countByte ampc k (safe_no_amp k Hk)),
    (notin_countByte ampc v (safe_no_amp v Hv)), IHe, IHa.
  rewrite !Ascii.eqb_refl.
  change (Ascii.eqb ampc eqc) with false.
  change (Ascii.eqb eqc ampc) with false.
  cbn [List.length]. split; lia.
Qed.

Lemma countByte_joinAmp fs :
  Forall (fun kv => allIn safeByte (fst kv) = true
                    /\ allIn safeByte (snd kv) = true) fs ->
  countByte eqc (joinAmp fs) = List.length fs
  /\ countByte ampc (joinAmp fs) = Nat.pred (List.length fs).
Proof.
  intros HF. destruct fs as [|[k v] fs]; [split; reflexivity|].
  inversion HF as [|kv l [Hk Hv] HF' E]; subst. cbn [fst snd] in *.
  destruct (countByte_eq_joinClauses fs HF') as [He Ha].
  change (joinAmp ((k, v) :: fs))
    with ((k ++ String eqc v) ++ joinClauses fs).
  rewrite !countByte_app. cbn [countByte].
  rewrite (notin_countByte eqc k (safe_no_eq k Hk)),
    (notin_countByte eqc v (safe_no_eq v Hv)),
    (notin_countByte ampc k (safe_no_amp k Hk)),
    (notin_countByte ampc v (safe_no_amp v Hv)), He, Ha.
  rewrite Ascii.eqb_refl. change (Ascii.eqb eqc ampc) with false.
  cbn [List.length Nat.pred]. split; lia.
Qed.

(** X3. Values cannot add clauses: a query string [Params] returns has one
    "=" for each clause (one for the location, two for the latitude and
    longitude pair, one for each other field that is set) and one "&"
    between two clauses, whatever bytes the values hold. When no location
    clause is written (only one of latitude and longitude set) every
    clause has its "&" in front, the first one too. *)
Theorem Params_separators bs s :
  Params bs = (s, None) ->
  countByte "=" s = List.length (locFields bs ++ fields bs)
  /\ countByte "&" s
     = (Nat.pred (List.length (locFields bs)) + List.length (fields bs))%nat.
Proof.
  intros HP. destruct (Params_success bs s HP) as [_ [_ ->]].
  pose proof (fields_safe bs) as HF. apply Forall_app in HF.
  destruct HF as [HL HFs].
  destruct (countByte_joinAmp _ HL) as [Le La].
  destruct (countByte_eq_joinClauses _ HFs) as [Fe Fa].
  change "="%char with eqc. change "&"%char with ampc.
  rewrite !countByte_app, Le, La, Fe, Fa, length_app. split; reflexivity.
Qed.

Lemma Params_separators_witness :
  countByte "=" "location=a%26b%3Dc&term=x%3Dy%26z" = 2%nat
  /\ countByte "&" "location=a%26b%3Dc&term=x%3Dy%26z" = 1%nat.
Proof.
  exact (Params_separators
           (SetTerm (SetLocation emptyParams "a&b=c") "x=y&z")
           "location=a%26b%3Dc&term=x%3Dy%26z" eq_refl).
Defined.

(** ** The bytes of a query string *)

Lemma joinClauses_queryByte fs :
  Forall (fun kv => allIn safeByte (fst kv) = true
                    /\ allIn safeByte (snd kv) = true) fs ->
  allIn queryByte (joinClauses fs) = true.
Proof.
  induction 1 as [|[k v] fs [Hk Hv] HF IH]; [reflexivity|].
  cbn [fst snd] in *.
  change (joinClauses ((k, v) :: fs))
    with (String ampc (k ++ String eqc v) ++ joinClauses fs).
  rewrite allIn_app, IH. cbn [allIn]. rewrite allIn_app. cbn [allIn].
  rewrite (allIn_impl _ _ k safeByte_queryByte Hk),
    (allIn_impl _ _ v safeByte_queryByte Hv).
  reflexivity.
Qed.

Lemma joinAmp_queryByte fs :
  Forall (fun kv => allIn safeByte (fst kv) = true
                    /\ allIn safeByte (snd kv) = true) fs ->
  allIn queryByte (joinAmp fs) = true.
Proof.
  intros HF. destruct fs as [|[k v] fs]; [reflexivity|].
  inversion HF as [|kv l [Hk Hv] HF' E]; subst. cbn [fst snd] in *.
  change (joinAmp ((k, v) :: fs))
    with ((k ++ String eqc v) ++ joinClauses fs).
  rewrite !allIn_app, (joinClauses_queryByte fs HF'). cbn [allIn].
  rewrite (allIn_impl _ _ k safeByte_queryByte Hk),
    (allIn_impl _ _ v safeByte_queryByte Hv).
  reflexivity.
Qed.

Lemma Params_queryBytes bs s :
  Params bs = (s, None) -> allIn queryByte s = true.
Proof.
  intros HP. destruct (Params_success bs s HP) as [_ [_ ->]].
  pose proof (fields_safe bs) as HF. apply Forall_app in HF.
  destruct HF as [HL HFs].
  now rewrite allIn_app, (joinAmp_queryByte _ HL),
    (joinClauses_queryByte _ HFs).
Qed.

(** X4. A query string [Params] returns is made of ASCII letters, digits
    and the marks - _ . ~ + % & = only: no space, no "?", no "#", no
    control byte and no byte above 127, whatever the fields hold. *)
Theorem Params_bytes bs s :
  Params bs = (s, None) -> allIn queryByte s = true.
Proof. exact (Params_queryBytes bs s). Qed.

Lemma Params_bytes_witness :
  allIn queryByte "location=caf%C3%A9+%3F%23&term=a+b" = true.
Proof.
  apply (Params_bytes
           (SetTerm
              (SetLocation emptyParams
                 ("caf" ++ String (ascii_of 195) (String (ascii_of 169) " ?#")))
              "a b")).
  reflexivity.
Defined.

(** ** Setters *)

Lemma applySetter_noLocation bs c :
  noLocation bs = false -> noLocation (applySetter bs c) = false.
Proof.
  unfold noLocation. destruct c; cbn; try exact (fun H => H);
    intros H; rewrite ?andb_false_r; reflexivity.
Qed.

Lemma applySetter_bothOpen bs c :
  bothOpen bs = true -> bothOpen (applySetter bs c) = true.
Proof.
  unfold bothOpen. destruct c; cbn; try exact (fun H => H); intros H;
    apply andb_prop in H; destruct H as [H1 H2];
    rewrite ?H1, ?H2; reflexivity.
Qed.

(** X5. No setter clears a field. A record that passes the location check
    passes it after any further setter calls; a record with open_now and
    open_at both set keeps both through any further setter calls, so
    [Params] fails on it for good. *)
Theorem setters_never_unset bs calls :
  (noLocation bs = false -> noLocation (applySetters bs calls) = false)
  /\ (bothOpen bs = true ->
      bothOpen (applySetters bs calls) = true
      /\ fst (Params (applySetters bs calls)) = ""
      /\ snd (Params (applySetters bs calls)) <> None).
Proof.
  unfold applySetters. split.
  - revert bs. induction calls as [|c calls IH]; intros bs H; [exact H|].
    cbn [fold_left]. apply IH. now apply applySetter_noLocation.
  - intros H.
    assert (Hb : bothOpen (fold_left applySetter calls bs) = true).
    { revert bs H. induction calls as [|c calls IH]; intros bs H; [exact H|].
      cbn [fold_left]. apply IH. now apply applySetter_bothOpen. }
    split; [exact Hb|]. rewrite Params_cases, Hb.
    destruct (noLocation _); split; cbn; congruence.
Qed.

Lemma setters_never_unset_witness :
  snd (Params
         (applySetters (SetOpenAt (SetOpenNow emptyParams true) 5)
            [CallSetLocation "Austin, TX"; CallSetOpenNow false;
             CallSetTerm "food"]))
  <> None.
Proof.
  apply (proj2 (setters_never_unset
                  (SetOpenAt (SetOpenNow emptyParams true) 5)
                  [CallSetLocation "Austin, TX"; CallSetOpenNow false;
                   CallSetTerm "food"])).
  reflexivity.
Defined.

(** * Further properties of the client *)

(** ** What a call does, route by route *)

Lemma respond_run lib yf ctx r w :
  respond lib yf ctx r w
  = match routeURL r with
    | inr err => (inr err, w)
    | inl url =>
        match url_Parse lib url with
        | Some err => (inr err, logged w [EvNewRequest "GET" url])
        | None =>
            (client yf (authRequest yf "GET" url),
             {| heap := heap w ++ authRequest yf "GET" url
                          :: contextCopy yf ctx "GET" url;
                trace := trace w ++ [EvNewRequest "GET" url;
                                     EvDo (authRequest yf "GET" url)] |})
        end
    end.
Proof.
  destruct r as [bus | busID locale | phoneNumber | busID locale];
    cbn [respond routeURL].
  - unfold SearchBusinessResponse.
    destruct (Params bus) as [params [err|]]; [reflexivity|].
    apply getRequest_then_Do.
  - unfold SearchBusinessDetailsWithLocaleResponse, localeQuery. cbv zeta.
    destruct (String.eqb (TrimSpace locale) ""); cbn [negb].
    + rewrite getRequest_then_Do.
      change (baseURL ++ busDetails ++ "/" ++ busID ++ "")
        with ("https://api.yelp.com/v3/businesses/" ++ busID ++ "").
      rewrite append_nil_r. reflexivity.
    + apply getRequest_then_Do.
  - unfold SearchBusinessesByPhoneResponse.
    destruct (String.eqb (TrimSpace phoneNumber) ""); [reflexivity|].
    apply getRequest_then_Do.
  - unfold SearchBusinessReviewsWithLocaleResponse, localeQuery. cbv zeta.
    destruct (String.eqb (TrimSpace locale) ""); cbn [negb].
    + rewrite getRequest_then_Do.
      change (baseURL ++ busDetails ++ "/" ++ busID ++ reviewSearch ++ "")
        with ("https://api.yelp.com/v3/businesses/"
                ++ busID ++ reviewSearch ++ "").
      rewrite append_nil_r. reflexivity.
    + rewrite getRequest_then_Do.
      change ((baseURL ++ busDetails ++ "/" ++ busID ++ reviewSearch)
                ++ "?locale=" ++ QueryEscape locale)
        with ("https://api.yelp.com/v3/businesses/"
                ++ (busID ++ reviewSearch) ++ "?locale=" ++ QueryEscape locale).
      rewrite append_assoc. reflexivity.
Qed.

Lemma invoke_run lib yf ctx r w :
  invoke lib yf ctx r w
  = match respond lib yf ctx r w with
    | (inr err, w') => ((nilAnswer r, Some err), w')
    | (inl resp, w') =>
        if accepted r (StatusCode resp)
        then
          (match decodeAnswer lib r (Body resp) with
           | (_, Some err) => (nilAnswer r, Some err)
           | (a, None) => (a, None)
           end,
           logged w' [EvDecode (Body resp); EvClose (Body resp)])
        else ((nilAnswer r, Some (errors_New (Status resp))), w')
    end.
Proof.
  destruct r as [bus | busID locale | phoneNumber | busID locale];
    cbn [invoke respond nilAnswer accepted decodeAnswer];
    unfold SearchBusinessWithContext, SearchBusinessDetailsWithLocale,
      SearchBusinessesByPhoneWithContext, SearchBusinessReviewsWithLocale,
      bind;
    match goal with
    | |- context [let '(_, _) := ?c in _] =>
        destruct c as [[resp | err] w']
    end;
    try reflexivity;
    rewrite <- ?negb_orb;
    match goal with
    | |- context [negb ?b] => destruct b
    end;
    cbn [negb]; try reflexivity;
    unfold decode, Body_Close, bind, emit, ret, logged; cbn [heap trace];
    rewrite <- app_assoc; cbn [List.app];
    first [ destruct (json_BusinessSearchData lib _) as [b [e|]]
          | destruct (json_DetailedBusinessInfo lib _) as [b [e|]]
          | destruct (json_ReviewsData lib _) as [b [e|]] ];
    reflexivity.
Qed.

Lemma sent_app a b : sent (a ++ b) = (sent a ++ sent b)%list.
Proof.
  induction a as [|e a IH]; [reflexivity|].
  destruct e; cbn [sent List.app]; now rewrite IH.
Qed.

Lemma routeURL_prefix r url :
  routeURL r = inl url ->
  HasPrefix url "https://api.yelp.com/v3/businesses" = true.
Proof.
  destruct r as [bus | busID locale | phoneNumber | busID locale];
    cbn [routeURL].
  - destruct (Params bus) as [params [err|]]; [discriminate|].
    intros [= <-].
    exact (HasPrefix_app "https://api.yelp.com/v3/businesses"
             ("/search?" ++ params)).
  - intros [= <-].
    exact (HasPrefix_app "https://api.yelp.com/v3/businesses"
             ("/" ++ busID ++ localeQuery locale)).
  - destruct (String.eqb (TrimSpace phoneNumber) ""); [discriminate|].
    intros [= <-].
    exact (HasPrefix_app "https://api.yelp.com/v3/businesses"
             ("/search/phone?phone=" ++ QueryEscape phoneNumber)).
  - intros [= <-].
    exact (HasPrefix_app "https://api.yelp.com/v3/businesses"
             ("/" ++ busID ++ reviewSearch ++ localeQuery locale)).
Qed.

Lemma respond_sent lib yf ctx r w :
  sent (trace (snd (respond lib yf ctx r w)))
  = (sent (trace w) ++ expectedRequests lib yf r)%list.
Proof.
  rewrite respond_run. unfold expectedRequests.
  destruct (routeURL r) as [url | err]; cbn [snd].
  - destruct (url_Parse lib url); cbn [snd logged trace];
      now rewrite sent_app.
  - now rewrite app_nil_r.
Qed.

Lemma invoke_sent lib yf ctx r w :
  sent (trace (snd (invoke lib yf ctx r w)))
  = (sent (trace w) ++ expectedRequests lib yf r)%list.
Proof.
  rewrite invoke_run. rewrite <- (respond_sent lib yf ctx r w).
  destruct (respond lib yf ctx r w) as [[resp | err] w']; cbn [snd];
    [|reflexivity].
  destruct (accepted r (StatusCode resp)); cbn [snd logged trace];
    [|reflexivity].
  rewrite sent_app. cbn [sent]. now rewrite app_nil_r.
Qed.

(** ** Validation of the search parameters *)

(** X6. When [Params] refuses the record the search functions return its
    error with a nil result and leave the world as it was: no request is
    constructed and nothing is handed to the transport. *)
Theorem search_validation_before_request lib yf ctx bus err w :
  snd (Params bus) = Some err ->
  SearchBusinessResponse lib yf ctx bus w = (inr err, w)
  /\ SearchBusinessWithContext lib yf ctx bus w = ((None, Some err), w)
  /\ SearchBusiness lib yf bus w = ((None, Some err), w).
Proof.
  intros H.
  assert (HR : forall c, SearchBusinessResponse lib yf c bus w = (inr err, w)).
  { intros c. unfold SearchBusinessResponse.
    destruct (Params bus) as [params [e|]]; cbn [snd] in H;
      [now injection H as -> | discriminate]. }
  split; [apply HR|].
  split; unfold SearchBusiness, SearchBusinessWithContext, bind;
    now rewrite HR.
Qed.

Lemma search_validation_before_request_witness :
  SearchBusiness stubLibrary (stubYelp okNull)
    (SetTerm (SetLatitude emptyParams f30) "food") emptyWorld
  <> ((None, Some errMissingLocation), emptyWorld)
  /\ SearchBusiness stubLibrary (stubYelp okNull)
       (SetTerm emptyParams "food") emptyWorld
     = ((None, Some errMissingLocation), emptyWorld).
Proof.
  split; [discriminate|].
  apply (search_validation_before_request stubLibrary (stubYelp okNull) None
           (SetTerm emptyParams "food") errMissingLocation emptyWorld).
  reflexivity.
Defined.

(** ** The locale of the details and reviews routes *)

(** X7. A locale that trims to the empty string is left off: the details
    and reviews functions then do exactly what they do for the empty
    locale. Any other locale is appended as "?locale=" followed by the
    escaped locale as it was given, surrounding white space included. The
    business id goes into the path as it is, unescaped. *)
Theorem locale_rule lib yf ctx busID locale w :
  (TrimSpace locale = "" ->
     SearchBusinessDetailsWithLocaleResponse lib yf ctx busID locale w
     = SearchBusinessDetailsWithLocaleResponse lib yf ctx busID "" w
     /\ SearchBusinessReviewsWithLocaleResponse lib yf ctx busID locale w
        = SearchBusinessReviewsWithLocaleResponse lib yf ctx busID "" w)
  /\ (TrimSpace locale <> "" ->
      (exists rest,
         trace (snd (SearchBusinessDetailsWithLocaleResponse lib yf ctx busID
                       locale w))
         = (trace w
            ++ EvNewRequest "GET"
                 ("https://api.yelp.com/v3/businesses/" ++ busID
                    ++ "?locale=" ++ QueryEscape locale)%string :: rest)%list)
      /\ (exists rest,
            trace (snd (SearchBusinessReviewsWithLocaleResponse lib yf ctx
                          busID locale w))
            = (trace w
               ++ EvNewRequest "GET"
                    ("https://api.yelp.com/v3/businesses/" ++ busID
                       ++ "/reviews?locale=" ++ QueryEscape locale)%string
                  :: rest)%list)).
Proof.
  split.
  - intros H.
    unfold SearchBusinessDetailsWithLocaleResponse,
      SearchBusinessReviewsWithLocaleResponse.
    rewrite H. split; reflexivity.
  - intros H. apply String.eqb_neq in H.
    pose proof (respond_run lib yf ctx (RouteDetails busID locale) w) as HD.
    pose proof (respond_run lib yf ctx (RouteReviews busID locale) w) as HR.
    cbn [respond routeURL] in HD, HR. unfold localeQuery in HD, HR.
    rewrite H in HD, HR. split.
    + rewrite HD.
      match goal with
      | |- context [url_Parse lib ?u] => destruct (url_Parse lib u)
      end; cbn [snd logged trace]; eexists; reflexivity.
    + rewrite HR.
      match goal with
      | |- context [url_Parse lib ?u] => destruct (url_Parse lib u)
      end; cbn [snd logged trace]; eexists; reflexivity.
Qed.

Lemma locale_rule_witness :
  SearchBusinessDetailsWithLocaleResponse stubLibrary (stubYelp okNull) None
    "some-business" blankPhone emptyWorld
  = SearchBusinessDetailsWithLocaleResponse stubLibrary (stubYelp okNull) None
      "some-business" "" emptyWorld
  /\ exists rest,
       trace (snd (SearchBusinessReviewsWithLocaleResponse stubLibrary
                     (stubYelp okNull) None "a/b?c" " fr_FR" emptyWorld))
       = (trace emptyWorld
          ++ EvNewRequest "GET"
               ("https://api.yelp.com/v3/businesses/" ++ "a/b?c"
                  ++ "/reviews?locale=" ++ QueryEscape " fr_FR")%string
             :: rest)%list.
Proof.
  split.
  - apply (proj1 (locale_rule stubLibrary (stubYelp okNull) None
                    "some-business" blankPhone emptyWorld)).
    reflexivity.
  - apply (proj2 (locale_rule stubLibrary (stubYelp okNull) None
                    "a/b?c" " fr_FR" emptyWorld)).
    discriminate.
Defined.

(** ** One request for each call *)

(** X8. A call of any of the eight route functions hands at most one
    request to the transport and never a second one, whatever the
    response, its status or the outcome of decoding: exactly one when the
    arguments are valid and the URL parses, none otherwise. *)
Theorem one_request_per_call lib yf ctx r w :
  sent (trace (snd (respond lib yf ctx r w)))
  = (sent (trace w) ++ expectedRequests lib yf r)%list
  /\ sent (trace (snd (invoke lib yf ctx r w)))
     = (sent (trace w) ++ expectedRequests lib yf r)%list
  /\ (List.length (expectedRequests lib yf r) <= 1)%nat.
Proof.
  split; [apply respond_sent|]. split; [apply invoke_sent|].
  unfold expectedRequests.
  destruct (routeURL r) as [url|]; [destruct (url_Parse lib url)|];
    cbn [List.length]; lia.
Qed.

(** X9. Every request the client hands to the transport is a GET request
    for a URL under https://api.yelp.com/v3/businesses, carries the
    header Authorization: Bearer followed by the API key and no other
    header, and carries the background context. *)
Theorem requests_are_authenticated lib yf ctx r w req :
  In req (sent (trace (snd (invoke lib yf ctx r w)))) ->
  In req (sent (trace w))
  \/ (Method req = "GET"
      /\ routeURL r = inl (URL req)
      /\ HasPrefix (URL req) "https://api.yelp.com/v3/businesses" = true
      /\ req_Header req = [("Authorization", ["Bearer " ++ apiKey yf])]
      /\ Header_Get (req_Header req) "Authorization"
         = "Bearer " ++ apiKey yf
      /\ req_ctx req = Background).
Proof.
  rewrite invoke_sent. intros H. apply in_app_or in H.
  destruct H as [H | H]; [now left | right].
  unfold expectedRequests in H.
  destruct (routeURL r) as [url | err] eqn:E; [|destruct H].
  destruct (url_Parse lib url); [destruct H|].
  destruct H as [<- | []]. cbn [authRequest Method URL req_Header req_ctx].
  repeat split; try reflexivity. exact (routeURL_prefix r url E).
Qed.

Lemma requests_are_authenticated_witness :
  Method (authRequest (stubYelp okNull) "GET"
            "https://api.yelp.com/v3/businesses/some-business") = "GET"
  /\ Header_Get
       (req_Header (authRequest (stubYelp okNull) "GET"
                      "https://api.yelp.com/v3/businesses/some-business"))
       "Authorization" = "Bearer key".
Proof.
  destruct (requests_are_authenticated stubLibrary (stubYelp okNull)
              (Some (Derived 7)) (RouteDetails "some-business" "")
              emptyWorld
              (authRequest (stubYelp okNull) "GET"
                 "https://api.yelp.com/v3/businesses/some-business")
              (or_introl eq_refl))
    as [[] | [Hm [_ [_ [_ [Hh _]]]]]].
  split; [exact Hm | exact Hh].
Defined.

(** X10. The context argument changes nothing a caller or the transport
    can see: with any context, the [...Response] function and the typed
    function of a route return what they return without one, and leave
    the same trace of constructed, sent, decoded and closed events. *)
Theorem context_is_ignored lib yf ctx r w :
  fst (respond lib yf ctx r w) = fst (respond lib yf None r w)
  /\ trace (snd (respond lib yf ctx r w))
     = trace (snd (respond lib yf None r w))
  /\ fst (invoke lib yf ctx r w) = fst (invoke lib yf None r w)
  /\ trace (snd (invoke lib yf ctx r w))
     = trace (snd (invoke lib yf None r w)).
Proof.
  rewrite !invoke_run, !respond_run.
  destruct (routeURL r) as [url | err]; [|repeat split].
  destruct (url_Parse lib url); [repeat split|].
  destruct (client yf (authRequest yf "GET" url)) as [resp | err];
    [|repeat split].
  destruct (accepted r (StatusCode resp)); repeat split.
Qed.

(** ** Failures before a response *)

(** X11. When the URL does not parse, the typed function of the route
    returns the parser's error and a nil result after constructing
    nothing that is sent; when the transport fails, it returns the
    transport's error and a nil result. In both cases nothing is decoded
    or closed. *)
Theorem failures_before_response lib yf ctx r url err w :
  routeURL r = inl url ->
  (url_Parse lib url = Some err ->
     invoke lib yf ctx r w
     = ((nilAnswer r, Some err), logged w [EvNewRequest "GET" url]))
  /\ (url_Parse lib url = None ->
      client yf (authRequest yf "GET" url) = inr err ->
      fst (invoke lib yf ctx r w) = (nilAnswer r, Some err)
      /\ trace (snd (invoke lib yf ctx r w))
         = (trace w ++ [EvNewRequest "GET" url;
                        EvDo (authRequest yf "GET" url)])%list).
Proof.
  intros HU. split.
  - intros HP. now rewrite invoke_run, respond_run, HU, HP.
  - intros HP HC. rewrite invoke_run, respond_run, HU, HP, HC.
    split; reflexivity.
Qed.

Lemma failures_before_response_witness :
  invoke strictLibrary (stubYelp okNull) None
    (RouteDetails "two words" "") emptyWorld
  = ((DetailsAnswer None,
      Some (ErrCollaborator "net/url" "invalid character in URL")),
     logged emptyWorld
       [EvNewRequest "GET" "https://api.yelp.com/v3/businesses/two words"])
  /\ fst (invoke stubLibrary downYelp None (RoutePhone "+15125550100")
            emptyWorld)
     = (SearchAnswer None,
        Some (ErrCollaborator "net/http" "connection refused")).
Proof.
  split.
  - apply (proj1 (failures_before_response strictLibrary (stubYelp okNull)
                    None (RouteDetails "two words" "")
                    "https://api.yelp.com/v3/businesses/two words"
                    (ErrCollaborator "net/url" "invalid character in URL")
                    emptyWorld eq_refl)).
    reflexivity.
  - apply (proj2 (failures_before_response stubLibrary downYelp None
                    (RoutePhone "+15125550100")
                    "https://api.yelp.com/v3/businesses/search/phone?phone=%2B15125550100"
                    (ErrCollaborator "net/http" "connection refused")
                    emptyWorld eq_refl)); reflexivity.
Defined.

(** ** Decoding *)

(** X12. On an accepted status the typed function of a route runs the
    decoder once on the body and then closes the body once. It returns
    the pointer the decoder filled and a nil error (the pointer is nil,
    with a nil error, when the decoder leaves it nil, as for the JSON
    value null); when the decoder fails it returns the decoder's error
    and a nil result, whatever the decoder had filled in. *)
Theorem decoding_outcome lib yf ctx r w resp w' :
  respond lib yf ctx r w = (inl resp, w') ->
  accepted r (StatusCode resp) = true ->
  snd (invoke lib yf ctx r w)
  = logged w' [EvDecode (Body resp); EvClose (Body resp)]
  /\ (forall err, snd (decodeAnswer lib r (Body resp)) = Some err ->
        fst (invoke lib yf ctx r w) = (nilAnswer r, Some err))
  /\ (snd (decodeAnswer lib r (Body resp)) = None ->
      fst (invoke lib yf ctx r w)
      = (fst (decodeAnswer lib r (Body resp)), None)).
Proof.
  intros HR HA. rewrite invoke_run, HR, HA.
  destruct (decodeAnswer lib r (Body resp)) as [a [e|]]; cbn [fst snd];
    repeat split; try discriminate.
  now intros err [= ->].
Qed.

Lemma decoding_outcome_witness :
  fst (invoke stubLibrary (stubYelp okNull) None
         (RouteSearch (SetLocation emptyParams "Austin, TX")) emptyWorld)
  = (SearchAnswer None, None)
  /\ fst (invoke stubLibrary (stubYelp okNull) None
            (RouteDetails "some-business" "") emptyWorld)
     = (DetailsAnswer None, Some (ErrCollaborator "encoding/json" "null")).
Proof.
  split.
  - apply (proj2 (proj2 (decoding_outcome stubLibrary (stubYelp okNull) None
                           (RouteSearch (SetLocation emptyParams "Austin, TX"))
                           emptyWorld okNull _ eq_refl eq_refl))).
    reflexivity.
  - apply (proj1 (proj2 (decoding_outcome stubLibrary (stubYelp okNull) None
                           (RouteDetails "some-business" "")
                           emptyWorld okNull _ eq_refl eq_refl))).
    reflexivity.
Defined.

(** ** Status codes of the reviews route *)

(** X13. The reviews function decodes the statuses 200 and 301 only: any
    other status comes back as the error made of the status text, with a
    nil result, the body neither decoded nor closed. *)
Theorem reviews_accepts_200_and_301_only lib yf ctx busID locale w resp w' :
  SearchBusinessReviewsWithLocaleResponse lib yf ctx busID locale w
  = (inl resp, w') ->
  StatusCode resp <> StatusOK ->
  StatusCode resp <> StatusMovedPermanently ->
  SearchBusinessReviewsWithLocale lib yf ctx busID locale w
  = ((None, Some (errors_New (Status resp))), w').
Proof. exact (reviews_other_status_is_error lib yf ctx busID locale w resp w'). Qed.

Lemma reviews_accepts_200_and_301_only_witness :
  SearchBusinessReviewsWithLocale stubLibrary (stubYelp teapot) None
    "some-business" "" emptyWorld
  = ((None, Some (errors_New "418 I'm a teapot")),
     snd (SearchBusinessReviewsWithLocaleResponse stubLibrary
            (stubYelp teapot) None "some-business" "" emptyWorld)).
Proof.
  apply (reviews_accepts_200_and_301_only stubLibrary (stubYelp teapot) None
           "some-business" "" emptyWorld teapot);
    [reflexivity | discriminate | discriminate].
Defined.

(** ** The earlier revision *)

(** X14. The earlier revision of the typed search and details functions
    never looks at the status code: whatever the status, the body is
    decoded and the outcome of the decoder returned. The search function
    closes the body after decoding, the details function does not close
    it. *)
Theorem Rev2_decodes_any_status lib yf ctx :
  (forall bus w resp w',
     SearchBusinessResponse lib yf ctx bus w = (inl resp, w') ->
     Rev2.SearchBusinessWithContext lib yf ctx bus w
     = (match json_BusinessSearchData lib (Body resp) with
        | (_, Some err) => (None, Some err)
        | (b, None) => (b, None)
        end,
        logged w' [EvDecode (Body resp); EvClose (Body resp)]))
  /\ (forall busID locale w resp w',
        SearchBusinessDetailsWithLocaleResponse lib yf ctx busID locale w
        = (inl resp, w') ->
        Rev2.SearchBusinessDetailsWithLocale lib yf ctx busID locale w
        = (match json_DetailedBusinessInfo lib (Body resp) with
           | (_, Some err) => (None, Some err)
           | (b, None) => (b, None)
           end,
           logged w' [EvDecode (Body resp)])).
Proof.
  split; intros until w'; intros HR;
    unfold Rev2.SearchBusinessWithContext,
      Rev2.SearchBusinessDetailsWithLocale, bind at 1; rewrite HR;
    unfold decode, Body_Close, bind, emit, ret, logged; cbn [heap trace];
    rewrite <- ?app_assoc; cbn [List.app];
    first [ destruct (json_BusinessSearchData lib _) as [b [e|]]
          | destruct (json_DetailedBusinessInfo lib _) as [b [e|]] ];
    reflexivity.
Qed.

Lemma Rev2_decodes_any_status_witness :
  Rev2.SearchBusinessWithContext stubLibrary (stubYelp notFound) None
    (SetLocation emptyParams "Austin, TX") emptyWorld
  = ((Some emptySearchData, None),
     logged (snd (SearchBusinessResponse stubLibrary (stubYelp notFound) None
                    (SetLocation emptyParams "Austin, TX") emptyWorld))
       [EvDecode "missing"; EvClose "missing"]).
Proof.
  apply (proj1 (Rev2_decodes_any_status stubLibrary (stubYelp notFound) None)
           _ emptyWorld notFound).
  reflexivity.
Defined.

(** ** Setter calls in any order *)

(** X15. Setter calls on different fields commute, and of two calls on the
    same field the later one wins: the record, and so the query string
    with its fixed clause order, does not depend on the order in which
    different setters were called. *)
Theorem setters_commute_or_override bs a b :
  applySetter (applySetter bs a) b
  = if sameField a b then applySetter bs b
    else applySetter (applySetter bs b) a.
Proof. destruct a, b; reflexivity. Qed.

(** ** The bytes of the URLs *)

Lemma queryByte_urlByte c : queryByte c = true -> urlByte c = true.
Proof. unfold urlByte. now intros ->. Qed.

Lemma safeByte_urlByte c : safeByte c = true -> urlByte c = true.
Proof. intros H. apply queryByte_urlByte. now apply safeByte_queryByte. Qed.

Lemma localeQuery_urlByte locale : allIn urlByte (localeQuery locale) = true.
Proof.
  unfold localeQuery. destruct (String.eqb (TrimSpace locale) "");
    [reflexivity|].
  rewrite allIn_app.
  now rewrite (allIn_impl _ _ _ safeByte_urlByte (QueryEscape_safe locale)).
Qed.

(** X16. The URL of a search or phone request is made of URL bytes only
    (letters, digits and - _ . ~ + percent & = : / ?), whatever the
    parameters and the phone number hold: every argument is escaped. The
    URL of a details or reviews request is so exactly when the business
    id is: the locale is escaped, the business id is not. *)
Theorem url_bytes r url :
  routeURL r = inl url ->
  allIn urlByte url = allIn urlByte (pathID r).
Proof.
  destruct r as [bus | busID locale | phoneNumber | busID locale];
    cbn [routeURL pathID].
  - destruct (Params bus) as [params [err|]] eqn:E; [discriminate|].
    intros [= <-].
    change (allIn urlByte
              ("https://api.yelp.com/v3/businesses/search?" ++ params)
            = true).
    rewrite allIn_app.
    now rewrite (allIn_impl _ _ _ queryByte_urlByte
                   (Params_queryBytes bus _ E)).
  - intros [= <-].
    change (allIn urlByte
              ("https://api.yelp.com/v3/businesses/"
                 ++ busID ++ localeQuery locale)
            = allIn urlByte busID).
    rewrite !allIn_app, localeQuery_urlByte.
    now rewrite andb_true_r.
  - destruct (String.eqb (TrimSpace phoneNumber) ""); [discriminate|].
    intros [= <-].
    change (allIn urlByte
              ("https://api.yelp.com/v3/businesses/search/phone?phone="
                 ++ QueryEscape phoneNumber)
            = true).
    rewrite allIn_app.
    now rewrite (allIn_impl _ _ _ safeByte_urlByte
                   (QueryEscape_safe phoneNumber)).
  - intros [= <-].
    change (allIn urlByte
              ("https://api.yelp.com/v3/businesses/"
                 ++ busID ++ "/reviews" ++ localeQuery locale)
            = allIn urlByte busID).
    rewrite !allIn_app, localeQuery_urlByte.
    now rewrite andb_true_r.
Qed.

Lemma url_bytes_witness :
  allIn urlByte
    "https://api.yelp.com/v3/businesses/search/phone?phone=%2B1+512%0A"
  = true
  /\ allIn urlByte "https://api.yelp.com/v3/businesses/two words" = false.
Proof.
  split.
  - exact (url_bytes
             (RoutePhone ("+1 512" ++ String (ascii_of 10) ""))
             "https://api.yelp.com/v3/businesses/search/phone?phone=%2B1+512%0A"
             eq_refl).
  - exact (url_bytes (RouteDetails "two words" "")
             "https://api.yelp.com/v3/businesses/two words" eq_refl).
Defined.
